(** * VoiceTask: the client state container and the transcription endpoint

    A shallow embedding of the voice-task application.

    - Part I embeds the [Home] component of the client: its React state
      cells and refs become one record, every handler becomes a function on
      that record, and the asynchronous handlers are split at their [await]
      so that other events may interleave.
    - Part II embeds the [POST] handler of [/api/transcribe] in a small
      exception monad; the platform and the two hosted providers are an
      explicit environment of call outcomes. *)

From Stdlib Require Import List String Ascii Bool Arith Lia.
Import ListNotations.
Open Scope string_scope.
Open Scope list_scope.

(* ================================================================== *)
(** * Part I: the client ([Home]) *)
(* ================================================================== *)

(** ** Data model *)

(** [category: 'urgent' | 'later' | 'completed'] *)
Inductive Category : Type := urgent | later | completed.

(** [priority: 'low' | 'medium' | 'high'] *)
Inductive Priority : Type := low | medium | high.

(** The four views of [activeTab]. *)
Inductive Tab : Type := TabRecord | TabTasks | TabRecordings | TabSettings.

Definition Category_eqb (a b : Category) : bool :=
  match a, b with
  | urgent, urgent | later, later | completed, completed => true
  | _, _ => false
  end.

(** A [Blob]: its bytes and its MIME type; [size] is the byte count. *)
Record Blob : Type := mkBlob { bytes : list nat; mime : string }.

Definition size (b : Blob) : nat := List.length (bytes b).

(** [new Blob(parts, { type })] concatenates the parts. *)
Definition newBlob (parts : list Blob) (type : string) : Blob :=
  mkBlob (flat_map bytes parts) type.

Module Task.
(** [interface Task] *)
Record t : Type := mk {
  id : string;
  text : string;
  category : Category;
  createdAt : string;
  dueDate : option string;
  priority : Priority
}.

(** [{ ...task, category: c }] *)
Definition with_category (c : Category) (task : t) : t :=
  mk (id task) (text task) c (createdAt task) (dueDate task) (priority task).

(** [{ ...task, priority }] *)
Definition with_priority (p : Priority) (task : t) : t :=
  mk (id task) (text task) (category task) (createdAt task) (dueDate task) p.
End Task.

Module Recording.
(** [interface Recording]; [duration] is a JS number that the code only
    ever sets to 0. *)
Record t : Type := mk {
  id : string;
  blob : Blob;
  url : string;
  createdAt : string;
  duration : nat;
  transcript : option string
}.

(** [{ ...r, transcript: tr }]; [None] is JS [undefined]. *)
Definition with_transcript (tr : option string) (r : t) : t :=
  mk (id r) (blob r) (url r) (createdAt r) (duration r) tr.
End Recording.

(** A [MediaRecorder] object, identified by the handle of the stream it
    was constructed on. *)
Record MediaRecorder : Type := mkMediaRecorder { stream : nat }.

(** The state cells ([useState]) and refs ([useRef]) of [Home]. *)
Record State : Type := mkState {
  activeTab : Tab;
  isRecording : bool;
  recordings : list Recording.t;
  tasks : list Task.t;
  transcribing : bool;
  selectedRecording : option Recording.t;
  mediaRecorderRef : option MediaRecorder;
  chunksRef : list Blob
}.

(** The initial values passed to [useState] / [useRef]. *)
Definition init : State :=
  mkState TabRecord false [] [] false None None [].

(** ** Setters

    React setters; the list setters take an updater [prev => ...]. *)

Definition setActiveTab (v : Tab) (s : State) : State :=
  mkState v (isRecording s) (recordings s) (tasks s) (transcribing s)
          (selectedRecording s) (mediaRecorderRef s) (chunksRef s).

Definition setIsRecording (v : bool) (s : State) : State :=
  mkState (activeTab s) v (recordings s) (tasks s) (transcribing s)
          (selectedRecording s) (mediaRecorderRef s) (chunksRef s).

Definition setRecordings (f : list Recording.t -> list Recording.t)
    (s : State) : State :=
  mkState (activeTab s) (isRecording s) (f (recordings s)) (tasks s)
          (transcribing s) (selectedRecording s) (mediaRecorderRef s)
          (chunksRef s).

Definition setTasks (f : list Task.t -> list Task.t) (s : State) : State :=
  mkState (activeTab s) (isRecording s) (recordings s) (f (tasks s))
          (transcribing s) (selectedRecording s) (mediaRecorderRef s)
          (chunksRef s).

Definition setTranscribing (v : bool) (s : State) : State :=
  mkState (activeTab s) (isRecording s) (recordings s) (tasks s) v
          (selectedRecording s) (mediaRecorderRef s) (chunksRef s).

Definition setSelectedRecording (v : option Recording.t) (s : State) : State :=
  mkState (activeTab s) (isRecording s) (recordings s) (tasks s)
          (transcribing s) v (mediaRecorderRef s) (chunksRef s).

Definition setMediaRecorderRef (v : option MediaRecorder) (s : State) : State :=
  mkState (activeTab s) (isRecording s) (recordings s) (tasks s)
          (transcribing s) (selectedRecording s) v (chunksRef s).

Definition setChunksRef (v : list Blob) (s : State) : State :=
  mkState (activeTab s) (isRecording s) (recordings s) (tasks s)
          (transcribing s) (selectedRecording s) (mediaRecorderRef s) v.

(** ** Sources of fresh values

    [randomId k] is the value of
    [Math.random().toString(36).substr(2, 9)] at the k-th draw of a
    handler run and [nowISO k] the value of [new Date().toISOString()]
    at the k-th read. *)
Record Oracle : Type := mkOracle {
  randomId : nat -> string;
  nowISO : nat -> string
}.

(** ** Recording lifecycle *)

(** [startRecording] from the point where [getUserMedia] settles, in the
    state of that time; before its [await] the handler writes nothing.
    [mic = Some st] when access is granted with stream [st], [None] when
    the promise rejects (the [catch] logs and alerts). The body never
    reads [isRecording]. *)
Definition startRecording (mic : option nat) (s : State) : State :=
  match mic with
  | Some st =>
      let s1 := setMediaRecorderRef (Some (mkMediaRecorder st)) s in
      let s2 := setChunksRef [] s1 in
      setIsRecording true s2
  | None => s
  end.

(** [mediaRecorder.ondataavailable] *)
Definition ondataavailable (data : Blob) (s : State) : State :=
  if (0 <? size data)%nat then setChunksRef (chunksRef s ++ [data]) s else s.

(** [mediaRecorder.onstop]; [rid], [u] and [now] are the random id, the
    object URL and the timestamp drawn by the handler. *)
Definition onstop (rid u now : string) (s : State) : State :=
  let blob := newBlob (chunksRef s) "audio/webm" in
  let newRecording := Recording.mk rid blob u now 0 None in
  let s1 := setRecordings (fun prev => newRecording :: prev) s in
  setSelectedRecording (Some newRecording) s1.

(** [stopRecording] *)
Definition stopRecording (s : State) : State :=
  match mediaRecorderRef s with
  | Some _ => if isRecording s then setIsRecording false s else s
  | None => s
  end.

(** The record button:
    [onClick={isRecording ? stopRecording : startRecording}]. The click
    reads [isRecording] and runs the chosen handler up to its first
    [await]: [stopRecording] as a whole, or [startRecording] up to the
    call of [getUserMedia], which writes no state. The rest of
    [startRecording] runs when that promise settles, as an event of its
    own. *)
Definition clickRecordButton (s : State) : State :=
  if isRecording s then stopRecording s else s.

(** ** Transcription *)

(** The JSON body the client reads: [data.urgent] and [data.later], each
    an array of strings or absent ([None]). *)
Record Classification : Type := mkClassification {
  data_urgent : option (list string);
  data_later : option (list string)
}.

(** How the awaited part of [transcribeRecording] ends: [fetch] or
    [response.json()] rejects, or a body is delivered. *)
Inductive FetchOutcome : Type :=
| Threw
| Delivered (data : Classification).

(** JS truthiness of an optional array: every array is truthy, also the
    empty one. *)
Definition truthy {A : Type} (v : option A) : bool :=
  match v with Some _ => true | None => false end.

(** [v || []] *)
Definition orEmpty (v : option (list string)) : list string :=
  match v with Some l => l | None => [] end.

(** [texts.map(text => ({ id, text, category, createdAt, priority }))],
    the first element drawing at index [k]. *)
Fixpoint mapToTasks (o : Oracle) (c : Category) (p : Priority) (k : nat)
    (texts : list string) : list Task.t :=
  match texts with
  | [] => []
  | text :: rest =>
      Task.mk (randomId o k) text c (nowISO o k) None p
      :: mapToTasks o c p (S k) rest
  end.

(** The newline character of ['\n']. *)
Definition nl : string := String (ascii_of_nat 10) EmptyString.

(** [urgent.concat(later)]: an array argument is spliced in, any other
    value, here [undefined], is appended as one element. *)
Definition Array_concat (u : list string) (l : option (list string))
    : list (option string) :=
  map Some u ++ match l with
                | Some l' => map Some l'
                | None => [None]
                end.

(** [Array.prototype.join]: an [undefined] element prints as the empty
    string. *)
Fixpoint Array_join (sep : string) (xs : list (option string)) : string :=
  match xs with
  | [] => ""
  | x :: rest =>
      let sx := match x with Some v => v | None => "" end in
      match rest with
      | [] => sx
      | _ :: _ => (sx ++ sep ++ Array_join sep rest)%string
      end
  end.

(** [data.urgent?.concat(data.later)?.join('\n')] *)
Definition transcriptOf (data : Classification) : option string :=
  match data_urgent data with
  | Some u => Some (Array_join nl (Array_concat u (data_later data)))
  | None => None
  end.

(** The part of [transcribeRecording] before the first [await]. *)
Definition transcribeBegin (s : State) : State := setTranscribing true s.

(** The part of [transcribeRecording] after the awaits, applied to the
    state current at that time: the [try] body, the [catch] and the
    [finally]. *)
Definition transcribeSettle (recording : Recording.t) (out : FetchOutcome)
    (o : Oracle) (s : State) : State :=
  let s' :=
    match out with
    | Delivered data =>
        if truthy (data_urgent data) || truthy (data_later data) then
          let urgentTasks :=
            mapToTasks o urgent high 0 (orEmpty (data_urgent data)) in
          let laterTasks :=
            mapToTasks o later medium (List.length urgentTasks)
                       (orEmpty (data_later data)) in
          let s1 :=
            setTasks (fun prev => urgentTasks ++ laterTasks ++ prev) s in
          let s2 :=
            setRecordings
              (fun prev =>
                 map (fun r =>
                        if (Recording.id r =? Recording.id recording)%string
                        then Recording.with_transcript (transcriptOf data) r
                        else r) prev) s1 in
          setActiveTab TabTasks s2
        else s
    | Threw => s
    end in
  setTranscribing false s'.

(** A whole run of [transcribeRecording] with nothing interleaved. *)
Definition transcribeRecording (recording : Recording.t) (out : FetchOutcome)
    (o : Oracle) (s : State) : State :=
  transcribeSettle recording out o (transcribeBegin s).

(** ** Mutations exposed to the views *)

Definition deleteRecording (id : string) (s : State) : State :=
  let s1 :=
    setRecordings
      (fun prev =>
         filter (fun r => negb (Recording.id r =? id)%string) prev) s in
  match selectedRecording s with
  | Some sel =>
      if (Recording.id sel =? id)%string then setSelectedRecording None s1
      else s1
  | None => s1
  end.

(** The updater passed to [setTasks] by [toggleTaskComplete]. *)
Definition toggleIn (id : string) (prev : list Task.t) : list Task.t :=
  map (fun task =>
         if (Task.id task =? id)%string
         then Task.with_category
                (if Category_eqb (Task.category task) completed
                 then later else completed) task
         else task) prev.

Definition toggleTaskComplete (id : string) (s : State) : State :=
  setTasks (toggleIn id) s.

Definition deleteTask (id : string) (s : State) : State :=
  setTasks (fun prev => filter (fun t => negb (Task.id t =? id)%string) prev) s.

Definition updateTaskPriority (id : string) (priority : Priority)
    (s : State) : State :=
  setTasks
    (fun prev =>
       map (fun task =>
              if (Task.id task =? id)%string
              then Task.with_priority priority task
              else task) prev) s.

(** The two bulk clears of the settings view; [ok] is the answer of
    [confirm]. *)
Definition clearAllTasks (ok : bool) (s : State) : State :=
  if ok then setTasks (fun _ => []) s else s.

Definition clearAllRecordings (ok : bool) (s : State) : State :=
  if ok then setSelectedRecording None (setRecordings (fun _ => []) s) else s.

(** ** Display grouping *)

Definition urgentTasks (s : State) : list Task.t :=
  filter (fun t => Category_eqb (Task.category t) urgent) (tasks s).

Definition laterTasks (s : State) : list Task.t :=
  filter (fun t => Category_eqb (Task.category t) later) (tasks s).

Definition completedTasks (s : State) : list Task.t :=
  filter (fun t => Category_eqb (Task.category t) completed) (tasks s).

(** ** The client as a transition system *)

(** One event of the UI task queue: a click, a device callback or the
    settling of an awaited promise. [EGetUserMedia] is the settling of
    the [getUserMedia] call of an earlier click on the record button;
    any number of other events may lie between the two. *)
Inductive Event : Type :=
| EClickRecord
| EGetUserMedia (mic : option nat)
| EDataAvailable (data : Blob)
| ERecorderStop (rid u now : string)
| ETranscribeBegin
| ETranscribeSettle (recording : Recording.t) (out : FetchOutcome) (o : Oracle)
| EDeleteRecording (id : string)
| EToggleTaskComplete (id : string)
| EDeleteTask (id : string)
| EUpdateTaskPriority (id : string) (priority : Priority)
| ESetActiveTab (tab : Tab)
| EClearAllTasks (ok : bool)
| EClearAllRecordings (ok : bool).

Definition step (e : Event) (s : State) : State :=
  match e with
  | EClickRecord => clickRecordButton s
  | EGetUserMedia mic => startRecording mic s
  | EDataAvailable data => ondataavailable data s
  | ERecorderStop rid u now => onstop rid u now s
  | ETranscribeBegin => transcribeBegin s
  | ETranscribeSettle recording out o => transcribeSettle recording out o s
  | EDeleteRecording id => deleteRecording id s
  | EToggleTaskComplete id => toggleTaskComplete id s
  | EDeleteTask id => deleteTask id s
  | EUpdateTaskPriority id p => updateTaskPriority id p s
  | ESetActiveTab tab => setActiveTab tab s
  | EClearAllTasks ok => clearAllTasks ok s
  | EClearAllRecordings ok => clearAllRecordings ok s
  end.

(** Run a trace of events, oldest first. *)
Definition run (evs : list Event) (s : State) : State :=
  fold_left (fun acc e => step e acc) evs s.

Inductive reachable : State -> Prop :=
| reachable_init : reachable init
| reachable_step : forall e s, reachable s -> reachable (step e s).

(* ================================================================== *)
(** * Part II: the transcription endpoint ([POST /api/transcribe]) *)
(* ================================================================== *)

(** ** Calls that may throw *)

(** The result of a call that either returns or throws. *)
Inductive Exn (A : Type) : Type :=
| Ok (a : A)
| Raise.

Arguments Ok {A} a.
Arguments Raise {A}.

Definition bind {A B : Type} (m : Exn A) (k : A -> Exn B) : Exn B :=
  match m with
  | Ok a => k a
  | Raise => Raise
  end.

Notation "x <- m ;; k" := (bind m (fun x => k))
  (at level 61, m at next level, right associativity).

(** [try { m } catch { h }] *)
Definition tryCatch {A : Type} (m : Exn A) (h : A) : A :=
  match m with
  | Ok a => a
  | Raise => h
  end.

Section Endpoint.

(** The values [JSON.parse] produces. *)
Context {J : Type}.

(** What [formData.get('audio')] can hold besides [null]: an uploaded
    file with its bytes, or a plain string field. *)
Inductive FormDataEntryValue : Type :=
| EntryFile (content : list nat)
| EntryString (value : string).

(** The part of a chat completion the handler reads:
    [response.choices[i].message.content]. [choices] is [None] when the
    value the provider call returned carries no [choices] array. *)
Record Message : Type := mkMessage { content : option string }.
Record Choice : Type := mkChoice { message : option Message }.
Record ChatCompletion : Type :=
  mkChatCompletion { choices : option (list Choice) }.

(** The platform and the providers, as the outcomes of the handler's
    calls. [request_formData] is [request.formData()] followed by
    [.get('audio')]; [Date_now] is [Date.now()] in decimal;
    [transcriptions_create] is the speech-to-text call followed by the
    read of [.text]; [JSON_parse] returns [None] where [JSON.parse]
    throws. *)
Record Env : Type := mkEnv {
  request_formData : Exn (option FormDataEntryValue);
  Date_now : string;
  fs_writeFileSync : string -> list nat -> Exn unit;
  transcriptions_create : string -> Exn string;
  fs_unlinkSync : string -> Exn unit;
  chat_completions_create : string -> Exn ChatCompletion;
  JSON_parse : string -> option J
}.

(** The body handed to [NextResponse.json]. *)
Inductive Body : Type :=
| ErrorBody (error : string)
| JsonBody (value : J).

Record Response : Type := mkResponse { body : Body; status : nat }.

(** [NextResponse.json({ error }, { status })] *)
Definition errorResponse (error : string) (st : nat) : Response :=
  mkResponse (ErrorBody error) st.

(** [NextResponse.json(tasks)]: the status defaults to 200. *)
Definition jsonResponse (value : J) : Response :=
  mkResponse (JsonBody value) 200.

(** Truthiness of [audioFile]: [null] and the empty string are falsy. *)
Definition truthyEntry (v : option FormDataEntryValue) : bool :=
  match v with
  | None => false
  | Some (EntryString "") => false
  | Some _ => true
  end.

(** [await audioFile.arrayBuffer()] then [Buffer.from]: a string has no
    such method and the call throws a [TypeError]. *)
Definition arrayBuffer (v : option FormDataEntryValue) : Exn (list nat) :=
  match v with
  | Some (EntryFile c) => Ok c
  | _ => Raise
  end.

(** [path.join('/tmp', `audio-${Date.now()}.webm`)] *)
Definition tempFilePathOf (now : string) : string :=
  ("/tmp/audio-" ++ now ++ ".webm")%string.

(** The user message sent to the classification provider. *)
Definition userContent (transcript : string) : string :=
  ("Transcript: " ++ String (ascii_of_nat 34) transcript
     ++ String (ascii_of_nat 34) (nl ++ nl)
     ++ "Organize this into urgent and later tasks. Return JSON only.")%string.

(** [response.choices[0]?.message?.content]: the optional chain starts
    after the index, so without [choices] the read of [[0]] throws a
    [TypeError]; an empty array or a choice without message gives
    [undefined]. *)
Definition firstContent (response : ChatCompletion) : Exn (option string) :=
  match choices response with
  | None => Raise
  | Some [] => Ok None
  | Some (c :: _) =>
      Ok (match message c with
          | Some m => content m
          | None => None
          end)
  end.

(** Truthiness of [content]: [undefined], [null] and the empty string
    are falsy. *)
Definition truthyContent (c : option string) : bool :=
  match c with
  | None => false
  | Some "" => false
  | Some _ => true
  end.

(** [JSON.parse(content)] as a call that may throw. *)
Definition parseJSON (env : Env) (c : string) : Exn J :=
  match JSON_parse env c with
  | Some v => Ok v
  | None => Raise
  end.

(** The inner [try]/[catch] around [JSON.parse]. *)
Definition parseAndReply (env : Env) (c : string) : Response :=
  tryCatch
    (tasks <- parseJSON env c ;;
     Ok (jsonResponse tasks))
    (errorResponse "Failed to parse AI response" 500).

(** The handler. *)
Definition POST (env : Env) : Response :=
  tryCatch
    (audioFile <- request_formData env ;;
     if negb (truthyEntry audioFile) then
       Ok (errorResponse "No audio file provided" 400)
     else
       buffer <- arrayBuffer audioFile ;;
       let tempFilePath := tempFilePathOf (Date_now env) in
       _ <- fs_writeFileSync env tempFilePath buffer ;;
       transcription <- transcriptions_create env tempFilePath ;;
       _ <- fs_unlinkSync env tempFilePath ;;
       response <- chat_completions_create env (userContent transcription) ;;
       c <- firstContent response ;;
       if negb (truthyContent c) then
         Ok (errorResponse "No response from AI" 500)
       else
         Ok (parseAndReply env (match c with Some v => v | None => "" end)))
    (errorResponse "Failed to transcribe audio" 500).

(** The pipeline up to and including the classification call runs
    without a throw and that call returns [response]. *)
Definition classifiedAs (env : Env) (response : ChatCompletion) : Prop :=
  exists bytes transcript,
    request_formData env = Ok (Some (EntryFile bytes)) /\
    fs_writeFileSync env (tempFilePathOf (Date_now env)) bytes = Ok tt /\
    transcriptions_create env (tempFilePathOf (Date_now env))
      = Ok transcript /\
    fs_unlinkSync env (tempFilePathOf (Date_now env)) = Ok tt /\
    chat_completions_create env (userContent transcript) = Ok response.

(** Some step of the outer [try] body throws: one of the six calls, or
    the read of [response.choices[0]]. The cases follow the order of the
    steps. *)
Inductive pipelineThrows (env : Env) : Prop :=
| throws_formData :
    request_formData env = Raise -> pipelineThrows env
| throws_arrayBuffer : forall v,
    request_formData env = Ok (Some (EntryString v)) -> v <> "" ->
    pipelineThrows env
| throws_writeFileSync : forall bytes,
    request_formData env = Ok (Some (EntryFile bytes)) ->
    fs_writeFileSync env (tempFilePathOf (Date_now env)) bytes = Raise ->
    pipelineThrows env
| throws_transcription : forall bytes,
    request_formData env = Ok (Some (EntryFile bytes)) ->
    fs_writeFileSync env (tempFilePathOf (Date_now env)) bytes = Ok tt ->
    transcriptions_create env (tempFilePathOf (Date_now env)) = Raise ->
    pipelineThrows env
| throws_unlinkSync : forall bytes transcript,
    request_formData env = Ok (Some (EntryFile bytes)) ->
    fs_writeFileSync env (tempFilePathOf (Date_now env)) bytes = Ok tt ->
    transcriptions_create env (tempFilePathOf (Date_now env))
      = Ok transcript ->
    fs_unlinkSync env (tempFilePathOf (Date_now env)) = Raise ->
    pipelineThrows env
| throws_classification : forall bytes transcript,
    request_formData env = Ok (Some (EntryFile bytes)) ->
    fs_writeFileSync env (tempFilePathOf (Date_now env)) bytes = Ok tt ->
    transcriptions_create env (tempFilePathOf (Date_now env))
      = Ok transcript ->
    fs_unlinkSync env (tempFilePathOf (Date_now env)) = Ok tt ->
    chat_completions_create env (userContent transcript) = Raise ->
    pipelineThrows env
| throws_choices : forall response,
    classifiedAs env response ->
    firstContent response = Raise ->
    pipelineThrows env.

End Endpoint.

Arguments Env J : clear implicits.
Arguments Response J : clear implicits.
Arguments Body J : clear implicits.

(* ================================================================== *)
(** * Specification predicates *)
(* ================================================================== *)

(** The tasks [ts] carry the strings of one array of the response as
    their texts, one task per string in the order of the array; an
    absent array gives no task. *)
Definition textsFrom (field : option (list string)) (ts : list Task.t)
    : Prop :=
  match field with
  | Some strings => map Task.text ts = strings
  | None => ts = []
  end.

(** [now] is [prev] with one new task per string of the response in
    front: the strings of [data.urgent] first, labelled urgent/high, then
    the strings of [data.later], labelled later/medium. *)
Definition prependsClassified (data : Classification)
    (prev now : list Task.t) : Prop :=
  exists U L : list Task.t,
    now = U ++ L ++ prev /\
    textsFrom (data_urgent data) U /\
    Forall (fun t => Task.category t = urgent /\ Task.priority t = high) U /\
    textsFrom (data_later data) L /\
    Forall (fun t => Task.category t = later /\ Task.priority t = medium) L.

(** Membership of [t] in exactly one of three lists. *)
Definition inExactlyOne (t : Task.t) (a b c : list Task.t) : Prop :=
  (In t a /\ ~ In t b /\ ~ In t c) \/
  (~ In t a /\ In t b /\ ~ In t c) \/
  (~ In t a /\ ~ In t b /\ In t c).

(** The outcomes on which the client creates nothing: a throw, or a body
    with neither key. *)
Definition failedOrEmpty (out : FetchOutcome) : Prop :=
  out = Threw \/
  exists data, out = Delivered data /\
               data_urgent data = None /\ data_later data = None.

(** The transcript as the specification words it: the urgent strings
    followed by the later strings, joined with newlines. *)
Definition specTranscript (u l : list string) : string :=
  String.concat nl (u ++ l).

(** The transcript the specification expects for a body, an absent array
    counting as empty. *)
Definition specTranscriptOf (data : Classification) : string :=
  specTranscript (orEmpty (data_urgent data)) (orEmpty (data_later data)).


(** The selection after deleting [id], given the selection before. *)
Definition selectionAfterDelete (id : string)
    (before after : option Recording.t) : Prop :=
  match before with
  | Some sel =>
      (Recording.id sel = id -> after = None) /\
      (Recording.id sel <> id -> after = before)
  | None => after = None
  end.

(** No task of [l] carries the id. *)
Definition unusedId (id : string) (l : list Task.t) : Prop :=
  forall t, In t l -> Task.id t <> id.

(** ** Sample values *)

Definition sampleOracle : Oracle :=
  mkOracle
    (fun k => match k with
              | 0 => "k3j9x0a1b"
              | 1 => "q7w2e5r8t"
              | _ => "z6y5x4w3v"
              end)
    (fun _ => "2024-05-01T10:00:00.000Z").

Definition sampleChunk : Blob := mkBlob [26; 69; 223; 163] "audio/webm".

Definition sampleRecording : Recording.t :=
  Recording.mk "r1c4d9e2f" (mkBlob [26; 69; 223; 163] "audio/webm")
               "blob:voice-task/1" "2024-05-01T09:59:00.000Z" 0 None.

Definition otherRecording : Recording.t :=
  Recording.mk "m8n7b6v5c" (mkBlob [26; 69] "audio/webm")
               "blob:voice-task/2" "2024-05-01T09:58:00.000Z" 0
               (Some "water plants").

Definition bothBuckets : Classification :=
  mkClassification (Some ["call bank"]) (Some ["buy milk"]).


Definition urgentOnly : Classification :=
  mkClassification (Some ["call bank"]) None.


Definition urgentTask : Task.t :=
  Task.mk "k3j9x0a1b" "call bank" urgent "2024-05-01T10:00:00.000Z"
          None high.

(** Record, stop, transcribe, then tick the urgent task. *)
Definition sampleTrace : list Event :=
  [ EClickRecord;
    EGetUserMedia (Some 1);
    EDataAvailable sampleChunk;
    EClickRecord;
    ERecorderStop "r1c4d9e2f" "blob:voice-task/1" "2024-05-01T09:59:00.000Z";
    ETranscribeBegin;
    ETranscribeSettle sampleRecording (Delivered bothBuckets) sampleOracle;
    EToggleTaskComplete "k3j9x0a1b" ].

(** A capture in progress with one chunk buffered. *)
Definition midCapture : State :=
  run [EClickRecord; EGetUserMedia (Some 1); EDataAvailable sampleChunk]
      init.

(** Two clicks on the record button before the microphone prompt is
    answered, then the first grant and one chunk of audio. *)
Definition doubleClick : State :=
  run [EClickRecord; EClickRecord; EGetUserMedia (Some 1);
       EDataAvailable sampleChunk] init.

(** One saved recording, selected, next to an older one. *)
Definition twoRecordings : State :=
  mkState TabRecordings false [sampleRecording; otherRecording] []
          false (Some sampleRecording) None [].

(** ** The error table of the endpoint

    [errorCase env error st]: the run of the handler in [env] falls under
    the row of the error table that answers [{ error }] with status
    [st]. A classification call "returns no content" when the content
    read from it is falsy: absent, or the empty string. The last row
    takes every throw of the outer [try]. *)
Inductive errorCase {J : Type} (env : Env J) : string -> nat -> Prop :=
| case_no_audio :
    request_formData env = Ok None ->
    errorCase env "No audio file provided" 400
| case_no_content : forall response c,
    classifiedAs env response ->
    firstContent response = Ok c ->
    truthyContent c = false ->
    errorCase env "No response from AI" 500
| case_invalid_json : forall response c,
    classifiedAs env response ->
    firstContent response = Ok (Some c) ->
    truthyContent (Some c) = true ->
    JSON_parse env c = None ->
    errorCase env "Failed to parse AI response" 500
| case_other_failure :
    pipelineThrows env ->
    errorCase env "Failed to transcribe audio" 500.

(** A toy [JSON.parse] for the sample runs: it accepts the empty object
    only. *)
Definition sampleParse (c : string) : option Classification :=
  if (c =? "{}")%string then Some (mkClassification None None) else None.

(** A run in which every call returns and the classification provider
    answers with [c]. *)
Definition envAnswering (c : option string) : Env Classification :=
  mkEnv (Ok (Some (EntryFile [26; 69; 223; 163])))
        "1714557600000"
        (fun _ _ => Ok tt)
        (fun _ => Ok "call the bank and buy milk")
        (fun _ => Ok tt)
        (fun _ =>
           Ok (mkChatCompletion (Some [mkChoice (Some (mkMessage c))])))
        sampleParse.

(** A request without the [audio] field. *)
Definition envNoAudio : Env Classification :=
  mkEnv (Ok None) "1714557600000" (fun _ _ => Ok tt)
        (fun _ => Ok "") (fun _ => Ok tt)
        (fun _ => Ok (mkChatCompletion (Some []))) sampleParse.

(** A run in which the speech-to-text call throws. *)
Definition envWhisperDown : Env Classification :=
  mkEnv (Ok (Some (EntryFile [26; 69; 223; 163])))
        "1714557600000" (fun _ _ => Ok tt)
        (fun _ => Raise) (fun _ => Ok tt)
        (fun _ => Ok (mkChatCompletion (Some []))) sampleParse.

(* ================================================================== *)
(** * Part II-b: what the views compute and what the endpoint leaves on disk *)
(* ================================================================== *)

(** ** Counters and conditions of the views *)

(** [tasks.filter(t => t.category !== 'completed').length], the number
    shown as "active". *)
Definition activeCount (s : State) : nat :=
  List.length
    (filter (fun t => negb (Category_eqb (Task.category t) completed))
            (tasks s)).

(** The badge of the Tasks tab: [tasks.length > 0 && <span>...</span>]. *)
Definition tasksBadge (s : State) : option nat :=
  if (0 <? List.length (tasks s))%nat then Some (activeCount s) else None.

(** Truthiness of an optional string: [undefined] and [''] are falsy. *)
Definition truthyString (v : option string) : bool :=
  match v with
  | None => false
  | Some "" => false
  | Some _ => true
  end.

(** The recordings view shows the "Transcribed" label and the transcript
    under [recording.transcript &&], the "Transcribe" button under
    [!recording.transcript &&]. *)
Definition showsTranscript (r : Recording.t) : bool :=
  truthyString (Recording.transcript r).

Definition showsTranscribeButton (r : Recording.t) : bool :=
  negb (truthyString (Recording.transcript r)).

(** The three sections of the tasks view, each under [bucket.length > 0]. *)
Definition showsUrgentSection (s : State) : bool :=
  (0 <? List.length (urgentTasks s))%nat.

Definition showsLaterSection (s : State) : bool :=
  (0 <? List.length (laterTasks s))%nat.

Definition showsCompletedSection (s : State) : bool :=
  (0 <? List.length (completedTasks s))%nat.

(** A capture from the settling of [getUserMedia] to the [onstop]
    callback: the chunks [ds] arrive, the button is clicked, the recorder
    reports the stop. *)
Definition capture (st : nat) (ds : list Blob) (rid u now : string)
    (s : State) : State :=
  onstop rid u now
    (stopRecording
       (fold_left (fun acc d => ondataavailable d acc) ds
          (startRecording (Some st) s))).

(** Events other than the settling of a transcription. *)
Definition settlesTranscription (e : Event) : bool :=
  match e with
  | ETranscribeSettle _ _ _ => true
  | _ => false
  end.

(** ** The temporary file of the endpoint *)

(** The files under [/tmp], by path. *)
Definition Files : Type := string -> option (list nat).

(** A file system after a [writeFileSync] that returned. *)
Definition written (p : string) (b : list nat) (fs : Files) : Files :=
  fun q => if (q =? p)%string then Some b else fs q.

(** A file system after an [unlinkSync] that returned. *)
Definition unlinked (p : string) (fs : Files) : Files :=
  fun q => if (q =? p)%string then None else fs q.

(** A call that may throw and may change the files; what it changed
    before a throw stays changed. *)
Definition Fx (A : Type) : Type := Files -> Exn A * Files.

Definition bindFx {A B : Type} (m : Fx A) (k : A -> Fx B) : Fx B :=
  fun fs =>
    match m fs with
    | (Ok a, fs') => k a fs'
    | (Raise, fs') => (Raise, fs')
    end.

Notation "x <~ m ;; k" := (bindFx m (fun x => k))
  (at level 61, m at next level, right associativity).

(** A call that leaves the files alone. *)
Definition pureFx {A : Type} (m : Exn A) : Fx A := fun fs => (m, fs).

(** [try { m } catch { h }] *)
Definition tryCatchFx {A : Type} (m : Fx A) (h : A) (fs : Files)
    : A * Files :=
  match m fs with
  | (Ok a, fs') => (a, fs')
  | (Raise, fs') => (h, fs')
  end.

Section EndpointFiles.

Context {J : Type}.

(** [fs.writeFileSync(path, buffer)]: the file is there once the call has
    returned. *)
Definition writeFileSyncFx (env : Env J) (p : string) (b : list nat)
    : Fx unit :=
  fun fs =>
    match fs_writeFileSync env p b with
    | Ok tt => (Ok tt, written p b fs)
    | Raise => (Raise, fs)
    end.

(** [fs.unlinkSync(path)]: the file is gone once the call has returned. *)
Definition unlinkSyncFx (env : Env J) (p : string) : Fx unit :=
  fun fs =>
    match fs_unlinkSync env p with
    | Ok tt => (Ok tt, unlinked p fs)
    | Raise => (Raise, fs)
    end.

(** The handler again, call by call, with the files it leaves behind. *)
Definition POSTfx (env : Env J) : Files -> Response J * Files :=
  tryCatchFx
    (audioFile <~ pureFx (request_formData env) ;;
     if negb (truthyEntry audioFile) then
       pureFx (Ok (errorResponse "No audio file provided" 400))
     else
       buffer <~ pureFx (arrayBuffer audioFile) ;;
       let tempFilePath := tempFilePathOf (Date_now env) in
       _ <~ writeFileSyncFx env tempFilePath buffer ;;
       transcription <~ pureFx (transcriptions_create env tempFilePath) ;;
       _ <~ unlinkSyncFx env tempFilePath ;;
       response <~
         pureFx (chat_completions_create env (userContent transcription)) ;;
       c <~ pureFx (firstContent response) ;;
       if negb (truthyContent c) then
         pureFx (Ok (errorResponse "No response from AI" 500))
       else
         pureFx
           (Ok (parseAndReply env (match c with Some v => v | None => "" end))))
    (errorResponse "Failed to transcribe audio" 500).

End EndpointFiles.

(** A run in which every call returns and the completion carries no
    [choices]. *)
Definition envNoChoices : Env Classification :=
  mkEnv (Ok (Some (EntryFile [26; 69; 223; 163])))
        "1714557600000" (fun _ _ => Ok tt)
        (fun _ => Ok "call the bank and buy milk") (fun _ => Ok tt)
        (fun _ => Ok (mkChatCompletion None)) sampleParse.

(** No file at all. *)
Definition noFiles : Files := fun _ => None.

(** A run in which the upload is written and the classification provider
    throws. *)
Definition envClassifierDown : Env Classification :=
  mkEnv (Ok (Some (EntryFile [26; 69; 223; 163])))
        "1714557600000" (fun _ _ => Ok tt)
        (fun _ => Ok "call the bank and buy milk") (fun _ => Ok tt)
        (fun _ => Raise) sampleParse.

(* ================================================================== *)
(** * Part III: properties of the client *)
(* ================================================================== *)

(** ** Basic facts *)

Lemma Category_eqb_eq (a b : Category) : Category_eqb a b = true <-> a = b.
Proof. destruct a, b; simpl; split; congruence. Qed.

(** The two record updates write the field they name and no other. *)
Lemma with_category_fields (c : Category) (t : Task.t) :
  Task.category (Task.with_category c t) = c /\
  Task.id (Task.with_category c t) = Task.id t /\
  Task.text (Task.with_category c t) = Task.text t /\
  Task.createdAt (Task.with_category c t) = Task.createdAt t /\
  Task.dueDate (Task.with_category c t) = Task.dueDate t /\
  Task.priority (Task.with_category c t) = Task.priority t.
Proof. repeat split; reflexivity. Qed.

Lemma with_transcript_fields (tr : option string) (r : Recording.t) :
  Recording.transcript (Recording.with_transcript tr r) = tr /\
  Recording.id (Recording.with_transcript tr r) = Recording.id r /\
  Recording.blob (Recording.with_transcript tr r) = Recording.blob r /\
  Recording.url (Recording.with_transcript tr r) = Recording.url r /\
  Recording.createdAt (Recording.with_transcript tr r)
    = Recording.createdAt r /\
  Recording.duration (Recording.with_transcript tr r) = Recording.duration r.
Proof. repeat split; reflexivity. Qed.

Lemma run_app (evs1 evs2 : list Event) (s : State) :
  run (evs1 ++ evs2) s = run evs2 (run evs1 s).
Proof. unfold run. apply fold_left_app. Qed.

Lemma reachable_run (evs : list Event) : reachable (run evs init).
Proof.
  induction evs as [| e evs IH] using rev_ind.
  - apply reachable_init.
  - rewrite run_app. simpl. apply reachable_step, IH.
Qed.

Lemma reachable_is_run (s : State) :
  reachable s -> exists evs, s = run evs init.
Proof.
  induction 1 as [| e s _ [evs ->]].
  - exists []. reflexivity.
  - exists (evs ++ [e]). rewrite run_app. reflexivity.
Qed.

(** ** Tasks built from a classification *)

Lemma mapToTasks_text (o : Oracle) (c : Category) (p : Priority)
    (texts : list string) :
  forall k, map Task.text (mapToTasks o c p k texts) = texts.
Proof.
  induction texts as [| x rest IH]; intro k; simpl.
  - reflexivity.
  - now rewrite IH.
Qed.

Lemma mapToTasks_labels (o : Oracle) (c : Category) (p : Priority)
    (texts : list string) :
  forall k,
    Forall (fun t => Task.category t = c /\ Task.priority t = p)
           (mapToTasks o c p k texts).
Proof.
  induction texts as [| x rest IH]; intro k; simpl; constructor.
  - simpl. split; reflexivity.
  - apply IH.
Qed.

Lemma transcribeSettle_tasks (recording : Recording.t)
    (data : Classification) (o : Oracle) (s : State) :
  tasks (transcribeSettle recording (Delivered data) o s) =
  mapToTasks o urgent high 0 (orEmpty (data_urgent data))
  ++ mapToTasks o later medium
       (List.length (mapToTasks o urgent high 0 (orEmpty (data_urgent data))))
       (orEmpty (data_later data))
  ++ tasks s.
Proof.
  unfold transcribeSettle.
  destruct data as [[u |] [l |]]; reflexivity.
Qed.

Lemma mapToTasks_textsFrom (o : Oracle) (c : Category) (p : Priority)
    (k : nat) (field : option (list string)) :
  textsFrom field (mapToTasks o c p k (orEmpty field)).
Proof.
  destruct field as [strings |]; simpl;
    [apply mapToTasks_text | reflexivity].
Qed.

(** C1. Whatever classification [transcribeRecording] processes, the task
    list afterwards is the list it found, preceded by one urgent/high
    task per string of [data.urgent] and then one later/medium task per
    string of [data.later], in the order of the arrays. This holds for the
    list found when the response arrives and so for an uninterrupted run. *)
Theorem transcribe_prepends_classified_tasks (recording : Recording.t)
    (data : Classification) (o : Oracle) (s : State) :
  prependsClassified data (tasks s)
    (tasks (transcribeSettle recording (Delivered data) o s)) /\
  prependsClassified data (tasks s)
    (tasks (transcribeRecording recording (Delivered data) o s)).
Proof.
  assert (H : forall s0,
             prependsClassified data (tasks s0)
               (tasks (transcribeSettle recording (Delivered data) o s0))).
  { intro s0. rewrite transcribeSettle_tasks.
    eexists _, _. split; [reflexivity |].
    split; [apply mapToTasks_textsFrom |].
    split; [apply mapToTasks_labels |].
    split; [apply mapToTasks_textsFrom | apply mapToTasks_labels]. }
  split; [apply H |].
  unfold transcribeRecording.
  change (tasks s) with (tasks (transcribeBegin s)). apply H.
Qed.

(** ** Display grouping *)

Lemma bucket_lengths (l : list Task.t) :
  List.length (filter (fun t => Category_eqb (Task.category t) urgent) l)
  + List.length (filter (fun t => Category_eqb (Task.category t) later) l)
  + List.length (filter (fun t => Category_eqb (Task.category t) completed) l)
  = List.length l.
Proof.
  induction l as [| t l IH]; simpl; [reflexivity |].
  destruct (Task.category t); simpl; lia.
Qed.

Lemma bucket_membership (l : list Task.t) (t : Task.t) :
  In t l ->
  inExactlyOne t
    (filter (fun t => Category_eqb (Task.category t) urgent) l)
    (filter (fun t => Category_eqb (Task.category t) later) l)
    (filter (fun t => Category_eqb (Task.category t) completed) l).
Proof.
  intro Hin. unfold inExactlyOne. rewrite !filter_In.
  destruct (Task.category t) eqn:E; simpl.
  - left. intuition congruence.
  - right; left. intuition congruence.
  - right; right. intuition congruence.
Qed.

(** C2. In every reachable state the three category filters partition the
    task list: their lengths add up to the length of the list, every task
    of the list is in exactly one of them, and they hold nothing else. *)
Theorem buckets_partition_tasks (s : State) :
  reachable s ->
  List.length (urgentTasks s) + List.length (laterTasks s)
    + List.length (completedTasks s) = List.length (tasks s) /\
  (forall t, In t (tasks s) ->
     inExactlyOne t (urgentTasks s) (laterTasks s) (completedTasks s)) /\
  (forall t, In t (urgentTasks s) \/ In t (laterTasks s)
             \/ In t (completedTasks s) -> In t (tasks s)).
Proof.
  intros _. unfold urgentTasks, laterTasks, completedTasks.
  split; [apply bucket_lengths |].
  split; [intros t; apply bucket_membership |].
  intros t. rewrite !filter_In. tauto.
Qed.

Lemma buckets_partition_tasks_witness :
  reachable (run sampleTrace init) /\
  List.length (urgentTasks (run sampleTrace init))
    + List.length (laterTasks (run sampleTrace init))
    + List.length (completedTasks (run sampleTrace init))
  = List.length (tasks (run sampleTrace init)).
Proof.
  split; [apply reachable_run |].
  exact (proj1 (buckets_partition_tasks (run sampleTrace init)
                  (reachable_run sampleTrace))).
Defined.

(** ** The transcribing flag and the failure paths *)

(** C3. However the awaited call ends (a classification with tasks, a body
    without both keys, or a throw), the [transcribing] flag is false once
    [transcribeRecording] has run to its end. *)
Theorem transcribing_cleared_on_every_exit (recording : Recording.t)
    (out : FetchOutcome) (o : Oracle) (s : State) :
  transcribing (transcribeSettle recording out o s) = false /\
  transcribing (transcribeRecording recording out o s) = false.
Proof.
  split; reflexivity.
Qed.

(** C5. When the request fails or the body has neither [urgent] nor
    [later], the run leaves the task list, the recordings (and so each
    transcript) and the active tab as they were. *)
Theorem failure_leaves_state (recording : Recording.t) (out : FetchOutcome)
    (o : Oracle) (s : State) :
  failedOrEmpty out ->
  let s' := transcribeRecording recording out o s in
  tasks s' = tasks s /\
  recordings s' = recordings s /\
  map Recording.transcript (recordings s') =
    map Recording.transcript (recordings s) /\
  activeTab s' = activeTab s /\
  transcribeSettle recording out o s = setTranscribing false s.
Proof.
  intros [-> | (data & -> & Hu & Hl)]; simpl.
  - repeat split; reflexivity.
  - unfold transcribeRecording, transcribeSettle. rewrite Hu, Hl. simpl.
    repeat split; reflexivity.
Qed.

Lemma failure_leaves_state_witness :
  failedOrEmpty Threw /\
  tasks (transcribeRecording sampleRecording Threw sampleOracle
           (run sampleTrace init))
  = tasks (run sampleTrace init).
Proof.
  split; [left; reflexivity |].
  exact (proj1 (failure_leaves_state sampleRecording Threw sampleOracle
                  (run sampleTrace init) (or_introl eq_refl))).
Defined.

(** ** Transcript *)




Lemma transcribeSettle_recordings (recording : Recording.t)
    (data : Classification) (o : Oracle) (s : State) :
  truthy (data_urgent data) || truthy (data_later data) = true ->
  recordings (transcribeSettle recording (Delivered data) o s) =
  map (fun r =>
         if (Recording.id r =? Recording.id recording)%string
         then Recording.with_transcript (transcriptOf data) r
         else r) (recordings s).
Proof.
  intro H. unfold transcribeSettle. rewrite H. reflexivity.
Qed.




(** A body with only the [urgent] key: [concat(undefined)] appends one
    [undefined] element and the transcript ends in a newline. *)
Lemma transcript_trailing_newline_when_later_absent :
  transcriptOf urgentOnly = Some ("call bank" ++ nl)%string /\
  specTranscriptOf urgentOnly = "call bank".
Proof. split; reflexivity. Qed.

(** ** Toggling *)





(** ** Ids that match no task *)

Lemma map_unmatched {A : Type} (test : A -> bool) (f : A -> A) (l : list A) :
  (forall x, In x l -> test x = false) ->
  map (fun x => if test x then f x else x) l = l.
Proof.
  induction l as [| a l IH]; simpl; intro H; [reflexivity |].
  rewrite (H a (or_introl eq_refl)), IH; auto.
Qed.

Lemma filter_unmatched {A : Type} (test : A -> bool) (l : list A) :
  (forall x, In x l -> test x = false) ->
  filter (fun x => negb (test x)) l = l.
Proof.
  induction l as [| a l IH]; simpl; intro H; [reflexivity |].
  rewrite (H a (or_introl eq_refl)); simpl. rewrite IH; auto.
Qed.

Lemma setTasks_same (f : list Task.t -> list Task.t) (s : State) :
  f (tasks s) = tasks s -> setTasks f s = s.
Proof. destruct s; unfold setTasks; simpl; intros ->; reflexivity. Qed.

(** C10. With an id that no task of the list carries,
    [toggleTaskComplete], [deleteTask] and [updateTaskPriority] leave the
    task list, and with it the whole state, as it was. *)
Theorem unknown_id_is_noop (id : string) (p : Priority) (s : State) :
  unusedId id (tasks s) ->
  (tasks (toggleTaskComplete id s) = tasks s /\
   tasks (deleteTask id s) = tasks s /\
   tasks (updateTaskPriority id p s) = tasks s) /\
  (toggleTaskComplete id s = s /\
   deleteTask id s = s /\
   updateTaskPriority id p s = s).
Proof.
  intro H.
  assert (Hne : forall t, In t (tasks s) -> (Task.id t =? id)%string = false).
  { intros t Ht. apply String.eqb_neq, H, Ht. }
  assert (Ht : toggleIn id (tasks s) = tasks s).
  { unfold toggleIn.
    apply (map_unmatched (fun t => (Task.id t =? id)%string)); exact Hne. }
  assert (Hd : filter (fun t => negb (Task.id t =? id)%string) (tasks s)
               = tasks s).
  { apply (filter_unmatched (fun t => (Task.id t =? id)%string)); exact Hne. }
  assert (Hu : map (fun task => if (Task.id task =? id)%string
                                then Task.with_priority p task else task)
                   (tasks s) = tasks s).
  { apply (map_unmatched (fun t => (Task.id t =? id)%string)); exact Hne. }
  split.
  - simpl. auto.
  - unfold toggleTaskComplete, deleteTask, updateTaskPriority.
    repeat split; apply setTasks_same; assumption.
Qed.

Lemma unknown_id_is_noop_witness :
  unusedId "z6y5x4w3v" (tasks (run sampleTrace init)) /\
  tasks (toggleTaskComplete "z6y5x4w3v" (run sampleTrace init))
    = tasks (run sampleTrace init) /\
  tasks (deleteTask "z6y5x4w3v" (run sampleTrace init))
    = tasks (run sampleTrace init) /\
  tasks (updateTaskPriority "z6y5x4w3v" low (run sampleTrace init))
    = tasks (run sampleTrace init).
Proof.
  assert (H : unusedId "z6y5x4w3v" (tasks (run sampleTrace init))).
  { intros t [<- | [<- | []]]; discriminate. }
  split; [exact H |].
  exact (proj1 (unknown_id_is_noop "z6y5x4w3v" low (run sampleTrace init) H)).
Defined.

(** ** Deleting a recording *)

Lemma deleteRecording_recordings (id : string) (s : State) :
  recordings (deleteRecording id s) =
  filter (fun r => negb (Recording.id r =? id)%string) (recordings s).
Proof.
  unfold deleteRecording.
  destruct (selectedRecording s) as [sel |]; [| reflexivity].
  destruct (Recording.id sel =? id)%string; reflexivity.
Qed.

Lemma filter_removes_one {A : Type} (test : A -> bool) (l1 l2 : list A)
    (a : A) :
  test a = true ->
  (forall x, In x (l1 ++ l2) -> test x = false) ->
  filter (fun x => negb (test x)) (l1 ++ a :: l2) = l1 ++ l2.
Proof.
  intros Ha H. rewrite filter_app. simpl. rewrite Ha. simpl.
  rewrite <- filter_app. apply filter_unmatched, H.
Qed.

(** C8. [deleteRecording id] keeps exactly the recordings whose id
    differs from [id], in their order: where one recording carries the id
    it is the one removed, and where none does the list is unchanged. The
    selection becomes null when the selected recording carried the id and
    is unchanged otherwise. *)
Theorem deleteRecording_removes_and_deselects (id : string) (s : State) :
  (forall r, In r (recordings (deleteRecording id s)) <->
             In r (recordings s) /\ Recording.id r <> id) /\
  (forall l1 r l2,
     recordings s = l1 ++ r :: l2 ->
     Recording.id r = id ->
     (forall x, In x (l1 ++ l2) -> Recording.id x <> id) ->
     recordings (deleteRecording id s) = l1 ++ l2) /\
  ((forall x, In x (recordings s) -> Recording.id x <> id) ->
   recordings (deleteRecording id s) = recordings s) /\
  selectionAfterDelete id (selectedRecording s)
    (selectedRecording (deleteRecording id s)).
Proof.
  rewrite deleteRecording_recordings.
  split; [| split; [| split]].
  - intro r. rewrite filter_In, negb_true_iff, String.eqb_neq. tauto.
  - intros l1 r l2 -> Hr Hx.
    apply (filter_removes_one (fun r => (Recording.id r =? id)%string)).
    + now apply String.eqb_eq.
    + intros x Hin. apply String.eqb_neq, Hx, Hin.
  - intro Hx.
    apply (filter_unmatched (fun r => (Recording.id r =? id)%string)).
    intros x Hin. apply String.eqb_neq, Hx, Hin.
  - unfold selectionAfterDelete, deleteRecording.
    destruct (selectedRecording s) as [sel |] eqn:E; simpl.
    + destruct (String.eqb_spec (Recording.id sel) id) as [He | He]; simpl.
      * split; [reflexivity | contradiction].
      * split; [contradiction | intros _; exact E].
    + exact E.
Qed.

(** ** Starting while a capture runs *)

(** What the body of [startRecording] writes on a grant, whatever the
    state it finds: the flag is not consulted. *)
Lemma startRecording_on_grant (st : nat) (s : State) :
  isRecording (startRecording (Some st) s) = true /\
  mediaRecorderRef (startRecording (Some st) s) = Some (mkMediaRecorder st) /\
  chunksRef (startRecording (Some st) s) = [] /\
  recordings (startRecording (Some st) s) = recordings s /\
  tasks (startRecording (Some st) s) = tasks s /\
  selectedRecording (startRecording (Some st) s) = selectedRecording s.
Proof. repeat split; reflexivity. Qed.

(** C9. The claim wants a start during a capture to change nothing. The
    flag guards the button only at the time of the click: two clicks
    before the microphone prompt is answered both take the start branch,
    and when the second grant arrives a capture is running with one
    chunk buffered. The body of [startRecording] then runs all the same:
    the buffered chunk is dropped and the media recorder in the ref is
    replaced, so the first recorder can no longer be stopped. *)
Theorem second_grant_restarts_capture :
  (isRecording init = false /\
   isRecording (step EClickRecord init) = false) /\
  (isRecording doubleClick = true /\
   chunksRef doubleClick = [sampleChunk] /\
   mediaRecorderRef doubleClick = Some (mkMediaRecorder 1)) /\
  (isRecording (step (EGetUserMedia (Some 2)) doubleClick) = true /\
   chunksRef (step (EGetUserMedia (Some 2)) doubleClick) = [] /\
   mediaRecorderRef (step (EGetUserMedia (Some 2)) doubleClick)
     = Some (mkMediaRecorder 2)) /\
  step (EGetUserMedia (Some 2)) doubleClick <> doubleClick.
Proof.
  split; [split; reflexivity |].
  split; [repeat split; reflexivity |].
  split; [repeat split; reflexivity |].
  intro H. apply (f_equal chunksRef) in H. discriminate H.
Qed.

(* ================================================================== *)
(** * Part IV: properties of the endpoint *)
(* ================================================================== *)

Section EndpointFacts.

Context {J : Type}.
Implicit Types (env : Env J) (response : ChatCompletion).

(** Once the classification call has returned, the reply depends on the
    completion alone. *)
Lemma POST_classified env response :
  classifiedAs env response ->
  POST env =
  match firstContent response with
  | Raise => errorResponse "Failed to transcribe audio" 500
  | Ok c =>
      if negb (truthyContent c)
      then errorResponse "No response from AI" 500
      else parseAndReply env (match c with Some v => v | None => "" end)
  end.
Proof.
  intros (bytes & transcript & Hf & Hw & Ht & Hu & Hc).
  unfold POST. rewrite Hf.
  cbn [bind negb truthyEntry arrayBuffer].
  rewrite Hw. cbn [bind]. rewrite Ht. cbn [bind].
  rewrite Hu. cbn [bind]. rewrite Hc. cbn [bind].
  destruct (firstContent response) as [c |]; cbn [bind tryCatch];
    [| reflexivity].
  destruct (negb (truthyContent c)); reflexivity.
Qed.

Lemma POST_throws env :
  pipelineThrows env ->
  POST env = errorResponse "Failed to transcribe audio" 500.
Proof.
  intros [Hf | v Hf Hv | bytes Hf Hw | bytes Hf Hw Ht
          | bytes transcript Hf Hw Ht Hu
          | bytes transcript Hf Hw Ht Hu Hc
          | response Hcl Hch];
    [unfold POST; rewrite Hf;
     cbn [bind negb truthyEntry arrayBuffer tryCatch] .. |].
  - reflexivity.
  - destruct v; [contradiction | reflexivity].
  - rewrite Hw. reflexivity.
  - rewrite Hw. cbn [bind]. rewrite Ht. reflexivity.
  - rewrite Hw. cbn [bind]. rewrite Ht. cbn [bind]. rewrite Hu. reflexivity.
  - rewrite Hw. cbn [bind]. rewrite Ht. cbn [bind]. rewrite Hu. cbn [bind].
    rewrite Hc. reflexivity.
  - rewrite (POST_classified env response Hcl), Hch. reflexivity.
Qed.

(** A well-formed answer is passed on verbatim with status 200. *)
Lemma POST_success env response c v :
  classifiedAs env response ->
  firstContent response = Ok (Some c) ->
  truthyContent (Some c) = true ->
  JSON_parse env c = Some v ->
  POST env = jsonResponse v.
Proof.
  intros Hcl Hc Ht Hp. rewrite (POST_classified env response Hcl).
  rewrite Hc, Ht. cbn [negb]. unfold parseAndReply, parseJSON.
  rewrite Hp. reflexivity.
Qed.

(** The cases of the error table and the success case leave no run out. *)
Lemma POST_cases env :
  request_formData env = Ok None \/
  request_formData env = Ok (Some (EntryString "")) \/
  pipelineThrows env \/
  exists response, classifiedAs env response.
Proof.
  destruct (request_formData env) as [[[bytes | v] |] |] eqn:Hf.
  - destruct (fs_writeFileSync env (tempFilePathOf (Date_now env)) bytes)
      as [[] |] eqn:Hw;
      [| right; right; left; eapply throws_writeFileSync; eauto].
    destruct (transcriptions_create env (tempFilePathOf (Date_now env)))
      as [transcript |] eqn:Ht;
      [| right; right; left; eapply throws_transcription; eauto].
    destruct (fs_unlinkSync env (tempFilePathOf (Date_now env)))
      as [[] |] eqn:Hu;
      [| right; right; left; eapply throws_unlinkSync; eauto].
    destruct (chat_completions_create env (userContent transcript))
      as [response |] eqn:Hc;
      [| right; right; left; eapply throws_classification; eauto].
    right; right; right. exists response, bytes, transcript. auto.
  - destruct (string_dec v "") as [-> | Hv].
    + right; left. reflexivity.
    + right; right; left. eapply throws_arrayBuffer; eauto.
  - left. reflexivity.
  - right; right; left. apply throws_formData. exact Hf.
Qed.

(** C6. Each row of the error table, read off the status and the body
    of the reply: a missing [audio] field gives 400 with the error "No
    audio file provided"; a classification call without content gives
    500 with "No response from AI"; content that does not parse as JSON
    gives 500 with "Failed to parse AI response"; a throw anywhere else
    in the pipeline gives 500 with "Failed to transcribe audio". *)
Theorem POST_error_table env (error : string) (st : nat) :
  errorCase env error st ->
  status (POST env) = st /\ body (POST env) = ErrorBody error.
Proof.
  intros [Hf | response c Hcl Hc Hn | response c Hcl Hc Ht Hp | Hthrows].
  - unfold POST. rewrite Hf. split; reflexivity.
  - rewrite (POST_classified env response Hcl), Hc, Hn.
    split; reflexivity.
  - rewrite (POST_classified env response Hcl), Hc, Ht. cbn [negb].
    unfold parseAndReply, parseJSON. rewrite Hp. split; reflexivity.
  - rewrite (POST_throws env Hthrows). split; reflexivity.
Qed.

End EndpointFacts.

Lemma envAnswering_classified (c : option string) :
  classifiedAs (envAnswering c)
    (mkChatCompletion (Some [mkChoice (Some (mkMessage c))])).
Proof.
  exists [26; 69; 223; 163], "call the bank and buy milk".
  repeat split; reflexivity.
Qed.

Lemma envNoChoices_classified :
  classifiedAs envNoChoices (mkChatCompletion None).
Proof.
  exists [26; 69; 223; 163], "call the bank and buy milk".
  repeat split; reflexivity.
Qed.

Lemma POST_error_table_witness :
  (errorCase envNoAudio "No audio file provided" 400 /\
   status (POST envNoAudio) = 400 /\
   body (POST envNoAudio) = ErrorBody "No audio file provided") /\
  (errorCase (envAnswering None) "No response from AI" 500 /\
   status (POST (envAnswering None)) = 500 /\
   body (POST (envAnswering None)) = ErrorBody "No response from AI") /\
  (errorCase (envAnswering (Some "sorry, I can't help"))
     "Failed to parse AI response" 500 /\
   status (POST (envAnswering (Some "sorry, I can't help"))) = 500 /\
   body (POST (envAnswering (Some "sorry, I can't help")))
   = ErrorBody "Failed to parse AI response") /\
  (errorCase envWhisperDown "Failed to transcribe audio" 500 /\
   status (POST envWhisperDown) = 500 /\
   body (POST envWhisperDown) = ErrorBody "Failed to transcribe audio") /\
  (errorCase envNoChoices "Failed to transcribe audio" 500 /\
   status (POST envNoChoices) = 500 /\
   body (POST envNoChoices) = ErrorBody "Failed to transcribe audio").
Proof.
  assert (H1 : errorCase envNoAudio "No audio file provided" 400).
  { apply case_no_audio. reflexivity. }
  assert (H2 : errorCase (envAnswering None) "No response from AI" 500).
  { eapply case_no_content;
      [apply envAnswering_classified | reflexivity ..]. }
  assert (H3 : errorCase (envAnswering (Some "sorry, I can't help"))
                 "Failed to parse AI response" 500).
  { eapply case_invalid_json;
      [apply envAnswering_classified | reflexivity ..]. }
  assert (H4 : errorCase envWhisperDown "Failed to transcribe audio" 500).
  { apply case_other_failure.
    eapply throws_transcription; reflexivity. }
  assert (H5 : errorCase envNoChoices "Failed to transcribe audio" 500).
  { apply case_other_failure.
    eapply throws_choices; [apply envNoChoices_classified | reflexivity]. }
  refine (conj (conj H1 _) (conj (conj H2 _) (conj (conj H3 _)
            (conj (conj H4 _) (conj H5 _))))).
  - exact (POST_error_table envNoAudio _ _ H1).
  - exact (POST_error_table (envAnswering None) _ _ H2).
  - exact (POST_error_table (envAnswering (Some "sorry, I can't help"))
             _ _ H3).
  - exact (POST_error_table envWhisperDown _ _ H4).
  - exact (POST_error_table envNoChoices _ _ H5).
Defined.

(** The handler on the sample runs, by evaluation. *)
Lemma POST_sample_runs :
  POST envNoAudio = errorResponse "No audio file provided" 400 /\
  POST (envAnswering (Some "")) = errorResponse "No response from AI" 500 /\
  POST (envAnswering (Some "{}"))
  = jsonResponse (mkClassification None None) /\
  status (POST (envAnswering (Some "{}"))) = 200.
Proof. repeat split; reflexivity. Qed.

(** The scenario of the classification answer "call bank" / "buy milk",
    by evaluation: one urgent/high task, one later/medium task, the
    transcript on the recording and the tasks view in front. *)
Lemma scenario_call_bank_buy_milk :
  let s' := transcribeRecording sampleRecording (Delivered bothBuckets)
              sampleOracle twoRecordings in
  map (fun t => (Task.text t, Task.category t, Task.priority t)) (tasks s')
  = [("call bank", urgent, high); ("buy milk", later, medium)] /\
  map Recording.transcript (recordings s')
  = [Some ("call bank" ++ nl ++ "buy milk")%string; Some "water plants"] /\
  activeTab s' = TabTasks /\
  transcribing s' = false.
Proof. repeat split; reflexivity. Qed.

(* ================================================================== *)
(** * Part V: further properties of the client *)
(* ================================================================== *)

(** ** What every reachable state satisfies *)

Ltac unfold_handlers :=
  unfold clickRecordButton, stopRecording, startRecording, ondataavailable,
    onstop, transcribeBegin, transcribeSettle, deleteRecording,
    toggleTaskComplete, deleteTask, updateTaskPriority, clearAllTasks,
    clearAllRecordings in *.

Ltac split_cases :=
  repeat match goal with
         | |- context [match ?x with _ => _ end] => destruct x eqn:?
         end.

(** The fields a step of the record button can touch. *)
Lemma step_recorder_fields (e : Event) (s : State) :
  settlesTranscription e = false ->
  e <> EClickRecord ->
  (forall mic, e <> EGetUserMedia mic) ->
  isRecording (step e s) = isRecording s /\
  mediaRecorderRef (step e s) = mediaRecorderRef s.
Proof.
  intros Hs Hclick Hmic.
  destruct e; try discriminate Hs;
    try (exfalso; apply Hclick; reflexivity);
    try (exfalso; eapply Hmic; reflexivity);
    simpl; unfold_handlers; split_cases; simpl; auto.
Qed.

Lemma transcribeSettle_frame (recording : Recording.t) (out : FetchOutcome)
    (o : Oracle) (s : State) :
  isRecording (transcribeSettle recording out o s) = isRecording s /\
  selectedRecording (transcribeSettle recording out o s)
    = selectedRecording s /\
  mediaRecorderRef (transcribeSettle recording out o s)
    = mediaRecorderRef s /\
  chunksRef (transcribeSettle recording out o s) = chunksRef s.
Proof.
  unfold transcribeSettle. split_cases; simpl; auto.
Qed.

(** The flag [isRecording] is only ever true with a media recorder in
    the ref, so the button always stops a capture that is running. *)
Theorem recording_has_recorder (s : State) :
  reachable s ->
  isRecording s = true ->
  mediaRecorderRef s <> None /\
  isRecording (clickRecordButton s) = false.
Proof.
  intros Hr Hrec.
  assert (Hinv : mediaRecorderRef s <> None).
  { revert Hrec. induction Hr as [| e s Hr IH]; [discriminate |].
    destruct (settlesTranscription e) eqn:Hs.
    - destruct e; try discriminate. cbn [step].
      destruct (transcribeSettle_frame recording out o s) as (-> & _ & -> & _).
      exact IH.
    - destruct e; try discriminate Hs;
        try (destruct (step_recorder_fields _ s Hs) as [-> ->];
             [discriminate | intros ? ?; discriminate | exact IH]).
      + (* click *)
        simpl. unfold_handlers.
        destruct (isRecording s) eqn:Hi; [| intuition congruence].
        destruct (mediaRecorderRef s) eqn:Hm; simpl; intuition congruence.
      + (* the grant *)
        simpl. destruct mic; simpl; [congruence | exact IH]. }
  split; [exact Hinv |].
  unfold clickRecordButton, stopRecording. rewrite Hrec.
  destruct (mediaRecorderRef s); [reflexivity | contradiction].
Qed.

Lemma recording_has_recorder_witness :
  reachable midCapture /\
  isRecording midCapture = true /\
  isRecording (clickRecordButton midCapture) = false.
Proof.
  refine (conj (reachable_run _) (conj eq_refl _)).
  exact (proj2 (recording_has_recorder midCapture
                  (reachable_run _) eq_refl)).
Defined.

Lemma step_chunks (e : Event) (s : State) :
  chunksRef (step e s) = chunksRef s \/
  chunksRef (step e s) = [] \/
  exists d, (0 <? size d)%nat = true /\
            chunksRef (step e s) = chunksRef s ++ [d].
Proof.
  destruct e; simpl; unfold_handlers; split_cases; simpl; auto.
  right; right. eauto.
Qed.

(** No empty chunk is ever buffered. *)
Theorem buffered_chunks_nonempty (s : State) :
  reachable s ->
  Forall (fun c => 0 < size c) (chunksRef s).
Proof.
  induction 1 as [| e s _ IH]; [constructor |].
  destruct (step_chunks e s) as [-> | [-> | (d & Hd & ->)]].
  - exact IH.
  - constructor.
  - apply Forall_app. split; [exact IH |].
    constructor; [| constructor]. now apply Nat.ltb_lt.
Qed.

Lemma buffered_chunks_nonempty_witness :
  reachable midCapture /\
  Forall (fun c => 0 < size c) (chunksRef midCapture).
Proof.
  exact (conj (reachable_run _)
              (buffered_chunks_nonempty midCapture (reachable_run _))).
Defined.

(** ** A capture from start to saved recording *)

Lemma setChunksRef_same (s : State) : setChunksRef (chunksRef s) s = s.
Proof. destruct s; reflexivity. Qed.

Lemma fold_ondataavailable (ds : list Blob) :
  forall s,
    fold_left (fun acc d => ondataavailable d acc) ds s =
    setChunksRef
      (chunksRef s ++ filter (fun d => (0 <? size d)%nat) ds) s.
Proof.
  induction ds as [| d ds IH]; intro s; simpl.
  - rewrite app_nil_r. symmetry. apply setChunksRef_same.
  - rewrite IH. unfold ondataavailable.
    destruct (0 <? size d)%nat; simpl.
    + unfold setChunksRef; simpl. now rewrite <- app_assoc.
    + reflexivity.
Qed.

Lemma bytes_of_nonempty_chunks (ds : list Blob) :
  flat_map bytes (filter (fun d => (0 <? size d)%nat) ds)
  = flat_map bytes ds.
Proof.
  induction ds as [| d ds IH]; simpl; [reflexivity |].
  destruct (0 <? size d)%nat eqn:E; simpl.
  - now rewrite IH.
  - apply Nat.ltb_ge in E. unfold size in E.
    destruct (bytes d); simpl in *; [exact IH | lia].
Qed.

(** A capture that is started with the microphone granted, fed the
    chunks [ds] and stopped saves one recording in front of the others
    and selects it: its audio is the bytes of [ds] in order, whatever was
    buffered before the start, its duration is 0 and it has no
    transcript. The capture leaves [isRecording] false. *)
Theorem capture_saves_delivered_audio (st : nat) (ds : list Blob)
    (rid u now : string) (s : State) :
  exists r,
    recordings (capture st ds rid u now s) = r :: recordings s /\
    selectedRecording (capture st ds rid u now s) = Some r /\
    isRecording (capture st ds rid u now s) = false /\
    r = Recording.mk rid (mkBlob (flat_map bytes ds) "audio/webm")
                     u now 0 None /\
    size (Recording.blob r) = list_sum (map size ds).
Proof.
  eexists. unfold capture. rewrite fold_ondataavailable.
  unfold onstop, stopRecording, startRecording, newBlob; simpl.
  rewrite bytes_of_nonempty_chunks.
  repeat (split; [reflexivity |]).
  unfold size; simpl. clear.
  induction ds as [| d ds IH]; simpl; [reflexivity |].
  now rewrite length_app, IH.
Qed.

(** ** Where the entries of the lists come from *)

Lemma transcribeSettle_recordings_cases (recording : Recording.t)
    (out : FetchOutcome) (o : Oracle) (s : State) :
  recordings (transcribeSettle recording out o s) = recordings s \/
  exists tr,
    recordings (transcribeSettle recording out o s) =
    map (fun r =>
           if (Recording.id r =? Recording.id recording)%string
           then Recording.with_transcript tr r
           else r) (recordings s).
Proof.
  unfold transcribeSettle. split_cases; simpl; eauto.
Qed.

(** [r'] is [r] up to its transcript. *)
Lemma step_recording_origin (e : Event) (s : State) (r' : Recording.t) :
  In r' (recordings (step e s)) ->
  (exists r, In r (recordings s) /\
             Recording.with_transcript (Recording.transcript r') r = r') \/
  (Recording.duration r' = 0 /\ Recording.transcript r' = None /\
   selectedRecording (step e s) = Some r').
Proof.
  assert (Hsame : forall r, In r (recordings s) ->
            exists r0, In r0 (recordings s) /\
                       Recording.with_transcript (Recording.transcript r) r0
                       = r).
  { intros r Hr. exists r. split; [exact Hr | destruct r; reflexivity]. }
  destruct e; cbn [step];
    try (unfold_handlers; split_cases; simpl; intro Hin; left;
         now apply Hsame).
  - (* onstop *)
    unfold onstop; simpl. intros [<- | Hin]; [right | left]; auto.
  - (* settle *)
    destruct (transcribeSettle_recordings_cases recording out o s)
      as [-> | [tr ->]]; intro Hin; left; [now apply Hsame |].
    apply in_map_iff in Hin. destruct Hin as (r & <- & Hr).
    exists r. split; [exact Hr |].
    destruct (Recording.id r =? Recording.id recording)%string;
      destruct r; reflexivity.
  - (* deleteRecording *)
    rewrite deleteRecording_recordings. intro Hin.
    apply filter_In in Hin. left. now apply Hsame.
Qed.

Lemma transcribeSettle_tasks_cases (recording : Recording.t)
    (out : FetchOutcome) (o : Oracle) (s : State) :
  exists U L,
    tasks (transcribeSettle recording out o s) = U ++ L ++ tasks s /\
    Forall (fun t => Task.category t = urgent /\ Task.priority t = high
                     /\ Task.dueDate t = None) U /\
    Forall (fun t => Task.category t = later /\ Task.priority t = medium
                     /\ Task.dueDate t = None) L.
Proof.
  assert (Hm : forall c p texts k,
            Forall (fun t => Task.category t = c /\ Task.priority t = p
                             /\ Task.dueDate t = None)
                   (mapToTasks o c p k texts)).
  { intros c p texts. induction texts; intro k; simpl; constructor; auto. }
  destruct out as [| data].
  - exists [], []. simpl. auto.
  - rewrite transcribeSettle_tasks. eexists _, _.
    split; [reflexivity |]. split; apply Hm.
Qed.

(** [t'] is an old task up to category and priority, or a new one. *)
Lemma step_task_origin (e : Event) (s : State) (t' : Task.t) :
  In t' (tasks (step e s)) ->
  (exists t, In t (tasks s) /\
             Task.with_priority (Task.priority t')
               (Task.with_category (Task.category t') t) = t') \/
  (settlesTranscription e = true /\ Task.dueDate t' = None /\
   Task.category t' <> completed).
Proof.
  assert (Hsame : forall t, In t (tasks s) ->
            exists t0, In t0 (tasks s) /\
                       Task.with_priority (Task.priority t)
                         (Task.with_category (Task.category t) t0) = t).
  { intros t Ht. exists t. split; [exact Ht | destruct t; reflexivity]. }
  assert (Hmap : forall (test : Task.t -> bool) (f : Task.t -> Task.t),
            (forall t, Task.with_priority (Task.priority (f t))
                         (Task.with_category (Task.category (f t)) t) = f t) ->
            In t' (map (fun t => if test t then f t else t) (tasks s)) ->
            exists t, In t (tasks s) /\
                      Task.with_priority (Task.priority t')
                        (Task.with_category (Task.category t') t) = t').
  { intros test f Hf Hin. apply in_map_iff in Hin.
    destruct Hin as (t & <- & Ht). exists t. split; [exact Ht |].
    destruct (test t); [apply Hf | destruct t; reflexivity]. }
  destruct e; cbn [step];
    try (unfold_handlers; split_cases; simpl; intro Hin; left;
         now apply Hsame).
  - (* settle *)
    destruct (transcribeSettle_tasks_cases recording out o s)
      as (U & L & -> & HU & HL).
    rewrite !in_app_iff. rewrite Forall_forall in HU, HL.
    intros [Hin | [Hin | Hin]]; [right | right | left; now apply Hsame].
    + destruct (HU _ Hin) as (Hc & _ & Hd).
      repeat split; auto. congruence.
    + destruct (HL _ Hin) as (Hc & _ & Hd).
      repeat split; auto. congruence.
  - (* toggle *)
    intro Hin. left. unfold toggleTaskComplete, toggleIn in Hin.
    simpl in Hin. revert Hin. apply Hmap. intros []; reflexivity.
  - (* deleteTask *)
    simpl. intro Hin. apply filter_In in Hin. left. now apply Hsame.
  - (* updateTaskPriority *)
    intro Hin. left. simpl in Hin. revert Hin. apply Hmap.
    intros []; reflexivity.
Qed.

(** No handler ever computes a duration or sets a due date: in every
    reachable state each recording has duration 0 and each task has no
    [dueDate]. *)
Theorem duration_and_dueDate_never_set (s : State) :
  reachable s ->
  Forall (fun r => Recording.duration r = 0) (recordings s) /\
  Forall (fun t => Task.dueDate t = None) (tasks s).
Proof.
  induction 1 as [| e s _ [IHr IHt]]; [split; constructor |].
  rewrite Forall_forall in IHr, IHt.
  split; apply Forall_forall.
  - intros r' Hin.
    destruct (step_recording_origin e s r' Hin) as [(r & Hr & <-) | (H & _)];
      [apply (IHr r Hr) | exact H].
  - intros t' Hin.
    destruct (step_task_origin e s t' Hin) as [(t & Ht & <-) | (_ & H & _)];
      [apply (IHt t Ht) | exact H].
Qed.

Lemma duration_and_dueDate_never_set_witness :
  reachable (run sampleTrace init) /\
  Forall (fun r => Recording.duration r = 0)
         (recordings (run sampleTrace init)).
Proof.
  refine (conj (reachable_run _) _).
  exact (proj1 (duration_and_dueDate_never_set (run sampleTrace init)
                  (reachable_run _))).
Defined.

(** ** The selection *)

(** In every reachable state the selected recording, if any, carries the
    id of a recording of the list. *)
Theorem selection_is_saved (s : State) (sel : Recording.t) :
  reachable s ->
  selectedRecording s = Some sel ->
  exists r, In r (recordings s) /\ Recording.id r = Recording.id sel.
Proof.
  intro Hr. revert sel.
  induction Hr as [| e s _ IH]; [discriminate |].
  destruct e; cbn [step];
    try (unfold_handlers; split_cases; simpl; solve [exact IH | discriminate]).
  - (* onstop *)
    unfold onstop; simpl. intros sel [= <-]. eexists. split; [now left |].
    reflexivity.
  - (* settle *)
    destruct (transcribeSettle_frame recording out o s) as (_ & -> & _).
    intros sel Hsel. destruct (IH sel Hsel) as (r & Hin & Hid).
    destruct (transcribeSettle_recordings_cases recording out o s)
      as [-> | [tr ->]]; [eauto |].
    eexists. split; [apply in_map; exact Hin |].
    destruct (Recording.id r =? Recording.id recording)%string; exact Hid.
  - (* deleteRecording *)
    rewrite deleteRecording_recordings. unfold deleteRecording.
    intros sel Hsel.
    assert (H : selectedRecording s = Some sel /\ Recording.id sel <> id).
    { destruct (selectedRecording s) as [sel0 |] eqn:E;
        [| simpl in Hsel; congruence].
      destruct (String.eqb_spec (Recording.id sel0) id); simpl in Hsel;
        [discriminate | split; congruence]. }
    destruct H as [Hs Hne]. destruct (IH sel Hs) as (r & Hin & Hid).
    exists r. split; [| exact Hid].
    apply filter_In. split; [exact Hin |].
    apply negb_true_iff, String.eqb_neq. congruence.
Qed.

Lemma selection_is_saved_witness :
  reachable (run sampleTrace init) /\
  selectedRecording (run sampleTrace init) = Some sampleRecording /\
  exists r, In r (recordings (run sampleTrace init)) /\
            Recording.id r = Recording.id sampleRecording.
Proof.
  refine (conj (reachable_run _) (conj eq_refl _)).
  exact (selection_is_saved (run sampleTrace init) sampleRecording
           (reachable_run _) eq_refl).
Defined.

(** ** What the settling of a transcription leaves alone *)

(** Whatever the outcome, the settling of a transcription keeps the
    recordings in number and order and changes nothing of them but the
    transcript; it leaves the selection, the capture flag, the media
    recorder and the chunk buffer as they were. The selected copy of a
    recording so keeps the transcript it had. *)
Theorem transcription_writes_only_transcripts (recording : Recording.t)
    (out : FetchOutcome) (o : Oracle) (s : State) :
  map (Recording.with_transcript None)
      (recordings (transcribeSettle recording out o s))
  = map (Recording.with_transcript None) (recordings s) /\
  selectedRecording (transcribeSettle recording out o s)
    = selectedRecording s /\
  isRecording (transcribeSettle recording out o s) = isRecording s /\
  mediaRecorderRef (transcribeSettle recording out o s)
    = mediaRecorderRef s /\
  chunksRef (transcribeSettle recording out o s) = chunksRef s.
Proof.
  split; [| unfold transcribeSettle; split_cases; simpl; auto].
  destruct (transcribeSettle_recordings_cases recording out o s)
    as [-> | [tr ->]]; [reflexivity |].
  rewrite map_map. apply map_ext. intro r.
  destruct (Recording.id r =? Recording.id recording)%string; reflexivity.
Qed.

(** A body that carries a key but no string creates no task and still
    brings the tasks view to the front; the transcribed recording is left
    with a falsy transcript, so the recordings view goes on offering
    "Transcribe" for it. *)
Theorem empty_classification_switches_tab (recording : Recording.t)
    (data : Classification) (o : Oracle) (s : State) :
  truthy (data_urgent data) || truthy (data_later data) = true ->
  orEmpty (data_urgent data) = [] ->
  orEmpty (data_later data) = [] ->
  tasks (transcribeSettle recording (Delivered data) o s) = tasks s /\
  activeTab (transcribeSettle recording (Delivered data) o s) = TabTasks /\
  forall r,
    In r (recordings (transcribeSettle recording (Delivered data) o s)) ->
    Recording.id r = Recording.id recording ->
    showsTranscribeButton r = true /\ showsTranscript r = false.
Proof.
  intros Hk Hu Hl.
  split; [rewrite transcribeSettle_tasks, Hu, Hl; reflexivity |].
  split; [unfold transcribeSettle; rewrite Hk; reflexivity |].
  intros r Hin Hid. rewrite (transcribeSettle_recordings _ _ _ _ Hk) in Hin.
  apply in_map_iff in Hin. destruct Hin as (r0 & <- & _).
  unfold showsTranscribeButton, showsTranscript.
  destruct (String.eqb_spec (Recording.id r0) (Recording.id recording))
    as [_ | Hne]; [| contradiction].
  destruct data as [[u |] [l |]]; simpl in Hu, Hl, Hk; subst;
    try discriminate; split; reflexivity.
Qed.

Lemma empty_classification_switches_tab_witness :
  truthy (Some (@nil string)) || truthy (@None (list string)) = true /\
  tasks (transcribeSettle sampleRecording
           (Delivered (mkClassification (Some []) None))
           sampleOracle twoRecordings) = tasks twoRecordings /\
  activeTab (transcribeSettle sampleRecording
               (Delivered (mkClassification (Some []) None))
               sampleOracle twoRecordings) = TabTasks.
Proof.
  refine (conj eq_refl _).
  pose proof (empty_classification_switches_tab sampleRecording
                (mkClassification (Some []) None) sampleOracle twoRecordings
                eq_refl eq_refl eq_refl) as H.
  exact (conj (proj1 H) (proj1 (proj2 H))).
Defined.

(** ** Task ids *)

Lemma mapToTasks_ids (o : Oracle) (c : Category) (p : Priority)
    (texts : list string) :
  forall k,
    map Task.id (mapToTasks o c p k texts)
    = map (randomId o) (seq k (List.length texts)) /\
    map Task.createdAt (mapToTasks o c p k texts)
    = map (nowISO o) (seq k (List.length texts)).
Proof.
  induction texts as [| x rest IH]; intro k; simpl; [auto |].
  destruct (IH (S k)) as [-> ->]. auto.
Qed.

Lemma mapToTasks_length (o : Oracle) (c : Category) (p : Priority)
    (texts : list string) (k : nat) :
  List.length (mapToTasks o c p k texts) = List.length texts.
Proof.
  rewrite <- (length_map Task.text), mapToTasks_text. reflexivity.
Qed.

Lemma transcribeSettle_ids (recording : Recording.t) (data : Classification)
    (o : Oracle) (s : State) :
  map Task.id (tasks (transcribeSettle recording (Delivered data) o s))
  = map (randomId o)
        (seq 0 (List.length (orEmpty (data_urgent data))
                + List.length (orEmpty (data_later data))))
    ++ map Task.id (tasks s).
Proof.
  rewrite transcribeSettle_tasks, !map_app, mapToTasks_length.
  rewrite (proj1 (mapToTasks_ids _ _ _ _ _)).
  rewrite (proj1 (mapToTasks_ids _ _ _ _ _)).
  rewrite app_assoc, <- map_app, <- seq_app. reflexivity.
Qed.

(** The tasks of one response take the ids drawn, in the order of the
    draws. When these draws differ from one another and from the ids in
    use, the ids of the task list stay pairwise distinct. *)
Theorem fresh_ids_keep_tasks_distinct (recording : Recording.t)
    (data : Classification) (o : Oracle) (s : State) :
  NoDup (map (randomId o)
             (seq 0 (List.length (orEmpty (data_urgent data))
                     + List.length (orEmpty (data_later data))))) ->
  (forall k,
     k < List.length (orEmpty (data_urgent data))
         + List.length (orEmpty (data_later data)) ->
     ~ In (randomId o k) (map Task.id (tasks s))) ->
  NoDup (map Task.id (tasks s)) ->
  map Task.id (tasks (transcribeSettle recording (Delivered data) o s))
  = map (randomId o)
        (seq 0 (List.length (orEmpty (data_urgent data))
                + List.length (orEmpty (data_later data))))
    ++ map Task.id (tasks s) /\
  NoDup (map Task.id
           (tasks (transcribeSettle recording (Delivered data) o s))).
Proof.
  intros Hnew Hfresh Hold. rewrite transcribeSettle_ids.
  split; [reflexivity |].
  apply NoDup_app; [exact Hnew | exact Hold |].
  intros i Hi. apply in_map_iff in Hi. destruct Hi as (k & <- & Hk).
  apply in_seq in Hk. apply Hfresh. lia.
Qed.

Lemma fresh_ids_keep_tasks_distinct_witness :
  NoDup (map Task.id
           (tasks (transcribeSettle sampleRecording (Delivered bothBuckets)
                     sampleOracle twoRecordings))).
Proof.
  refine (proj2 (fresh_ids_keep_tasks_distinct sampleRecording bothBuckets
                   sampleOracle twoRecordings _ _ _)).
  - simpl. repeat constructor; simpl; intuition discriminate.
  - simpl. intros k _ [].
  - simpl. constructor.
Defined.

Lemma NoDup_map_filter {A B : Type} (f : A -> B) (test : A -> bool)
    (l : list A) :
  NoDup (map f l) -> NoDup (map f (filter test l)).
Proof.
  induction l as [| a l IH]; simpl; intro Hnd; [constructor |].
  inversion Hnd as [| ? ? Hnotin Hl]; subst.
  destruct (test a); simpl; [| now apply IH].
  constructor; [| now apply IH].
  intro Hin. apply Hnotin. apply in_map_iff in Hin.
  destruct Hin as (x & Hx & Hin). apply filter_In in Hin.
  apply in_map_iff. exists x. tauto.
Qed.

(** Every other event keeps the ids of the task list pairwise distinct:
    the mutations keep each task's id and the deletions only drop
    tasks. *)
Theorem mutations_keep_tasks_distinct (e : Event) (s : State) :
  settlesTranscription e = false ->
  NoDup (map Task.id (tasks s)) ->
  NoDup (map Task.id (tasks (step e s))).
Proof.
  intros Hs Hnd.
  assert (Hmap : forall (test : Task.t -> bool) (f : Task.t -> Task.t),
            (forall t, Task.id (f t) = Task.id t) ->
            map Task.id (map (fun t => if test t then f t else t) (tasks s))
            = map Task.id (tasks s)).
  { intros test f Hf. rewrite map_map. apply map_ext. intro t.
    destruct (test t); [apply Hf | reflexivity]. }
  destruct e; try discriminate Hs; cbn [step];
    try (unfold_handlers; split_cases; simpl; solve [exact Hnd | constructor]).
  - simpl. unfold toggleIn. rewrite Hmap; [exact Hnd | reflexivity].
  - simpl. apply NoDup_map_filter, Hnd.
  - simpl. rewrite Hmap; [exact Hnd | reflexivity].
Qed.

Lemma mutations_keep_tasks_distinct_witness :
  settlesTranscription (EDeleteTask "q7w2e5r8t") = false /\
  NoDup (map Task.id (tasks (run sampleTrace init))) /\
  NoDup (map Task.id
           (tasks (step (EDeleteTask "q7w2e5r8t") (run sampleTrace init)))).
Proof.
  assert (H : NoDup (map Task.id (tasks (run sampleTrace init)))).
  { simpl. repeat constructor; simpl; intuition discriminate. }
  refine (conj eq_refl (conj H _)).
  exact (mutations_keep_tasks_distinct (EDeleteTask "q7w2e5r8t")
           (run sampleTrace init) eq_refl H).
Defined.

(** ** Mutations of the task list *)

Lemma others_differ (l1 l2 : list Task.t) (t : Task.t) :
  NoDup (map Task.id (l1 ++ t :: l2)) ->
  forall x, In x (l1 ++ l2) -> (Task.id x =? Task.id t)%string = false.
Proof.
  rewrite map_app. simpl. intros Hnd x Hin.
  apply NoDup_remove_2 in Hnd. apply String.eqb_neq. intro E.
  apply Hnd. rewrite <- E, <- map_app. now apply in_map.
Qed.

Lemma map_touches_one {A : Type} (test : A -> bool) (f : A -> A)
    (l1 l2 : list A) (a : A) :
  test a = true ->
  (forall x, In x (l1 ++ l2) -> test x = false) ->
  map (fun x => if test x then f x else x) (l1 ++ a :: l2)
  = l1 ++ f a :: l2.
Proof.
  intros Ha H. rewrite map_app. simpl. rewrite Ha.
  rewrite !map_unmatched; [reflexivity | |];
    intros x Hx; apply H, in_app_iff; auto.
Qed.



(** From the second toggle on a task alternates between completed and
    later: three toggles give what one toggle gives. *)
Theorem toggle_thrice_is_toggle (id : string) (s : State) :
  toggleTaskComplete id (toggleTaskComplete id (toggleTaskComplete id s))
  = toggleTaskComplete id s.
Proof.
  unfold toggleTaskComplete, setTasks; simpl. f_equal.
  unfold toggleIn. rewrite !map_map.
  apply map_ext. intros [i tx c ca dd p]; simpl.
  destruct (i =? id)%string eqn:E; simpl;
    [destruct c; simpl |]; repeat (rewrite E; simpl); reflexivity.
Qed.

Lemma step_urgent_bucket (e : Event) (s : State) :
  settlesTranscription e = false ->
  exists (test : Task.t -> bool) (f : Task.t -> Task.t),
    (forall t, Task.category (f t) = urgent -> Task.category t = urgent) /\
    tasks (step e s) = map f (filter test (tasks s)).
Proof.
  intro Hs.
  assert (Hid : tasks s = map (fun t => t) (filter (fun _ => true) (tasks s))).
  { now rewrite map_id, filter_true. }
  destruct e; try discriminate Hs; cbn [step];
    try (exists (fun _ => true), (fun t => t); split; [auto |];
         unfold_handlers; split_cases; exact Hid).
  - (* toggle *)
    eexists (fun _ => true), _. split; [| simpl; rewrite filter_true;
                                         reflexivity].
    intro t; simpl. destruct (Task.id t =? id)%string; simpl; [| auto].
    destruct (Task.category t); simpl; congruence.
  - (* deleteTask *)
    eexists _, (fun t => t). split; [auto |]. simpl. now rewrite map_id.
  - (* updateTaskPriority *)
    eexists (fun _ => true), _. split; [| simpl; rewrite filter_true;
                                         reflexivity].
    intro t; simpl. destruct (Task.id t =? id)%string; simpl; auto.
  - (* clearAllTasks *)
    destruct ok.
    + exists (fun _ => false), (fun t => t). split; [auto |].
      simpl. now rewrite filter_false.
    + exists (fun _ => true), (fun t => t). split; [auto |]. exact Hid.
Qed.

Lemma urgent_bucket_shrinks (test : Task.t -> bool) (f : Task.t -> Task.t)
    (l : list Task.t) :
  (forall t, Task.category (f t) = urgent -> Task.category t = urgent) ->
  List.length
    (filter (fun t => Category_eqb (Task.category t) urgent)
            (map f (filter test l)))
  <= List.length (filter (fun t => Category_eqb (Task.category t) urgent) l).
Proof.
  intro Hf. induction l as [| t l IH]; simpl; [lia |].
  destruct (test t); simpl.
  - destruct (Category_eqb (Task.category (f t)) urgent) eqn:E; simpl.
    + apply Category_eqb_eq in E. rewrite (Hf t E). simpl. lia.
    + destruct (Category_eqb (Task.category t) urgent); simpl; lia.
  - destruct (Category_eqb (Task.category t) urgent); simpl; lia.
Qed.

(** Only the settling of a transcription adds to the urgent bucket: under
    every other event the number of urgent tasks stays or drops. A task
    that was ticked off never returns to urgent. *)
Theorem urgent_only_from_transcription (e : Event) (s : State) :
  settlesTranscription e = false ->
  List.length (urgentTasks (step e s)) <= List.length (urgentTasks s).
Proof.
  intro Hs. destruct (step_urgent_bucket e s Hs) as (test & f & Hf & E).
  unfold urgentTasks. rewrite E. now apply urgent_bucket_shrinks.
Qed.

Lemma urgent_only_from_transcription_witness :
  settlesTranscription (EToggleTaskComplete "k3j9x0a1b") = false /\
  List.length
    (urgentTasks (step (EToggleTaskComplete "k3j9x0a1b")
                       (run sampleTrace init)))
  <= List.length (urgentTasks (run sampleTrace init)).
Proof.
  refine (conj eq_refl _).
  exact (urgent_only_from_transcription (EToggleTaskComplete "k3j9x0a1b")
           (run sampleTrace init) eq_refl).
Defined.

(** [deleteTask id] drops every task that carries [id] and keeps the
    others in their order; once done, doing it again changes nothing. *)
Theorem deleteTask_removes_every_match (id : string) (s : State) :
  (forall t, In t (tasks (deleteTask id s)) <->
             In t (tasks s) /\ Task.id t <> id) /\
  (forall l1 t l2,
     tasks s = l1 ++ t :: l2 ->
     Task.id t <> id ->
     exists l1' l2', tasks (deleteTask id s) = l1' ++ t :: l2' /\
                     (forall x, In x l1' -> In x l1) /\
                     (forall x, In x l2' -> In x l2)) /\
  deleteTask id (deleteTask id s) = deleteTask id s.
Proof.
  split; [| split].
  - intro t. simpl. rewrite filter_In, negb_true_iff, String.eqb_neq. tauto.
  - intros l1 t l2 Hl Hne. simpl. rewrite Hl, filter_app. simpl.
    apply String.eqb_neq in Hne. rewrite Hne. simpl.
    eexists _, _. split; [reflexivity |].
    split; intros x Hx; apply filter_In in Hx; tauto.
  - unfold deleteTask, setTasks; simpl. f_equal.
    induction (tasks s) as [| t l IH]; simpl; [reflexivity |].
    destruct (Task.id t =? id)%string eqn:E; simpl; rewrite ?E; simpl;
      [exact IH | now rewrite IH].
Qed.

(** The three task mutations commute with one another, whatever the ids:
    the order of two clicks does not matter. *)
Theorem task_mutations_commute (a b : string) (p : Priority) (s : State) :
  deleteTask a (toggleTaskComplete b s)
    = toggleTaskComplete b (deleteTask a s) /\
  deleteTask a (updateTaskPriority b p s)
    = updateTaskPriority b p (deleteTask a s) /\
  toggleTaskComplete a (updateTaskPriority b p s)
    = updateTaskPriority b p (toggleTaskComplete a s) /\
  deleteTask a (deleteTask b s) = deleteTask b (deleteTask a s) /\
  toggleTaskComplete a (toggleTaskComplete b s)
    = toggleTaskComplete b (toggleTaskComplete a s).
Proof.
  unfold deleteTask, toggleTaskComplete, updateTaskPriority, setTasks, toggleIn;
    simpl.
  repeat split; f_equal.
  - rewrite filter_map_swap. f_equal. apply filter_ext. intro t.
    destruct (Task.id t =? b)%string; reflexivity.
  - rewrite filter_map_swap. f_equal. apply filter_ext. intro t.
    destruct (Task.id t =? b)%string; reflexivity.
  - rewrite !map_map. apply map_ext. intro t.
    destruct (Task.id t =? a)%string eqn:Ea,
             (Task.id t =? b)%string eqn:Eb; simpl;
      rewrite ?Ea, ?Eb; reflexivity.
  - induction (tasks s) as [| t l IH]; simpl; [reflexivity |].
    destruct (Task.id t =? a)%string eqn:Ea,
             (Task.id t =? b)%string eqn:Eb; simpl;
      rewrite ?Ea, ?Eb; simpl; rewrite ?IH; reflexivity.
  - rewrite !map_map. apply map_ext. intro t.
    destruct (Task.id t =? a)%string eqn:Ea,
             (Task.id t =? b)%string eqn:Eb; simpl;
      rewrite ?Ea, ?Eb; simpl; reflexivity.
Qed.

(** [updateTaskPriority] moves no task between the buckets: each bucket
    afterwards is the bucket before with the update applied. Every task
    carrying the id then has the new priority, and of two updates of the
    same id the last one wins. *)
Theorem priority_update_keeps_buckets (id : string) (p q : Priority)
    (s : State) :
  let upd := fun task =>
               if (Task.id task =? id)%string
               then Task.with_priority p task else task in
  urgentTasks (updateTaskPriority id p s) = map upd (urgentTasks s) /\
  laterTasks (updateTaskPriority id p s) = map upd (laterTasks s) /\
  completedTasks (updateTaskPriority id p s) = map upd (completedTasks s) /\
  (forall t, In t (tasks (updateTaskPriority id p s)) ->
             Task.id t = id -> Task.priority t = p) /\
  updateTaskPriority id p (updateTaskPriority id q s)
    = updateTaskPriority id p s.
Proof.
  intro upd.
  assert (Hb : forall c,
            filter (fun t => Category_eqb (Task.category t) c)
                   (map upd (tasks s))
            = map upd (filter (fun t => Category_eqb (Task.category t) c)
                              (tasks s))).
  { intro c. rewrite filter_map_swap. f_equal. apply filter_ext.
    intro t. unfold upd. destruct (Task.id t =? id)%string; reflexivity. }
  unfold urgentTasks, laterTasks, completedTasks. simpl. fold upd.
  rewrite !Hb. repeat split.
  - intros t Hin Hid. apply in_map_iff in Hin.
    destruct Hin as (t0 & <- & _). unfold upd in *.
    destruct (String.eqb_spec (Task.id t0) id); [reflexivity | contradiction].
  - unfold updateTaskPriority, setTasks; simpl. f_equal.
    rewrite map_map. apply map_ext. intro t.
    destruct (Task.id t =? id)%string eqn:E; simpl; rewrite E; reflexivity.
Qed.

(** ** Counters of the views *)

Lemma active_is_urgent_plus_later (l : list Task.t) :
  List.length
    (filter (fun t => negb (Category_eqb (Task.category t) completed)) l)
  = List.length (filter (fun t => Category_eqb (Task.category t) urgent) l)
    + List.length (filter (fun t => Category_eqb (Task.category t) later) l).
Proof.
  induction l as [| t l IH]; simpl; [reflexivity |].
  destruct (Task.category t); simpl; lia.
Qed.

(** The "active" number is the size of the urgent and later buckets
    together. The badge of the Tasks tab is absent exactly when there is
    no task, so it reads 0 when every task is completed; and the tasks
    view shows no section exactly when there is no task. *)
Theorem view_counters (s : State) :
  activeCount s = List.length (urgentTasks s) + List.length (laterTasks s) /\
  activeCount s + List.length (completedTasks s) = List.length (tasks s) /\
  (tasksBadge s = None <-> tasks s = []) /\
  (tasksBadge s = Some 0 <->
   tasks s <> [] /\ Forall (fun t => Task.category t = completed) (tasks s)) /\
  (showsUrgentSection s || showsLaterSection s || showsCompletedSection s
   = false <-> tasks s = []).
Proof.
  pose proof (bucket_lengths (tasks s)) as Hsum.
  pose proof (active_is_urgent_plus_later (tasks s)) as Hact.
  unfold activeCount, tasksBadge, showsUrgentSection, showsLaterSection,
    showsCompletedSection, urgentTasks, laterTasks, completedTasks in *.
  split; [exact Hact |]. split; [lia |].
  assert (Hnil : List.length (tasks s) = 0 <-> tasks s = []).
  { destruct (tasks s); simpl; split; congruence. }
  split; [| split].
  - destruct (0 <? List.length (tasks s))%nat eqn:E.
    + apply Nat.ltb_lt in E. split; [discriminate |].
      intro H. apply Hnil in H. lia.
    + apply Nat.ltb_ge in E. split; [intros _; apply Hnil; lia | reflexivity].
  - assert (Hall : List.length
                     (filter (fun t => negb (Category_eqb (Task.category t)
                                                          completed))
                             (tasks s)) = 0
                   <-> Forall (fun t => Task.category t = completed)
                              (tasks s)).
    { clear. induction (tasks s) as [| t l IH]; simpl.
      - split; [constructor | reflexivity].
      - destruct (Task.category t) eqn:E; simpl;
          try (split; [discriminate | intro H; inversion H; congruence]).
        rewrite IH. split; [now constructor | now inversion 1]. }
    destruct (0 <? List.length (tasks s))%nat eqn:E.
    + apply Nat.ltb_lt in E. split.
      * intros [= H]. split; [intro H0; apply Hnil in H0; lia |].
        now apply Hall.
      * intros [_ H]. f_equal. now apply Hall.
    + apply Nat.ltb_ge in E. split; [discriminate |].
      intros [H _]. exfalso. apply H, Hnil. lia.
  - rewrite !orb_false_iff, !Nat.ltb_ge, <- Hnil. lia.
Qed.

Lemma length_filter_app {A : Type} (test : A -> bool) (l1 l2 : list A) :
  List.length (filter test (l1 ++ l2))
  = List.length (filter test l1) + List.length (filter test l2).
Proof. now rewrite filter_app, length_app. Qed.

(** With pairwise distinct ids, ticking an active task takes one off the
    active number and unticking a completed task puts one back. *)
Theorem toggle_moves_active_count (l1 l2 : list Task.t) (t : Task.t)
    (s : State) :
  tasks s = l1 ++ t :: l2 ->
  NoDup (map Task.id (tasks s)) ->
  activeCount (toggleTaskComplete (Task.id t) s)
    + (if Category_eqb (Task.category t) completed then 0 else 1)
  = activeCount s
    + (if Category_eqb (Task.category t) completed then 1 else 0).
Proof.
  intros Hl Hnd.
  rewrite Hl in Hnd. pose proof (others_differ l1 l2 t Hnd) as Hother.
  unfold activeCount. simpl. rewrite Hl. unfold toggleIn.
  rewrite (map_touches_one (fun x => (Task.id x =? Task.id t)%string));
    auto using String.eqb_refl.
  rewrite !length_filter_app. simpl.
  destruct (Task.category t); simpl; lia.
Qed.

Lemma toggle_moves_active_count_witness :
  activeCount (toggleTaskComplete "k3j9x0a1b" (run sampleTrace init)) + 0
  = activeCount (run sampleTrace init) + 1.
Proof.
  refine (toggle_moves_active_count []
            [Task.mk "q7w2e5r8t" "buy milk" later "2024-05-01T10:00:00.000Z"
                     None medium]
            (Task.with_category completed urgentTask)
            (run sampleTrace init) eq_refl _).
  simpl. repeat constructor; simpl; intuition discriminate.
Defined.

(* ================================================================== *)
(** * Part VI: further properties of the endpoint *)
(* ================================================================== *)

Section EndpointShape.

Context {J : Type}.
Implicit Types (env : Env J) (response : ChatCompletion).

Lemma POST_blank_field env :
  request_formData env = Ok None \/
  request_formData env = Ok (Some (EntryString "")) ->
  POST env = errorResponse "No audio file provided" 400.
Proof. unfold POST. intros [-> | ->]; reflexivity. Qed.

(** Every run of the handler falls under one of five cases, each with
    its reply. *)
Lemma POST_shape env :
  ((request_formData env = Ok None \/
    request_formData env = Ok (Some (EntryString ""))) /\
   POST env = errorResponse "No audio file provided" 400) \/
  (pipelineThrows env /\
   POST env = errorResponse "Failed to transcribe audio" 500) \/
  (exists response c,
     classifiedAs env response /\ firstContent response = Ok c /\
     truthyContent c = false /\
     POST env = errorResponse "No response from AI" 500) \/
  (exists response c,
     classifiedAs env response /\ firstContent response = Ok (Some c) /\
     truthyContent (Some c) = true /\ JSON_parse env c = None /\
     POST env = errorResponse "Failed to parse AI response" 500) \/
  (exists response c v,
     classifiedAs env response /\ firstContent response = Ok (Some c) /\
     truthyContent (Some c) = true /\ JSON_parse env c = Some v /\
     POST env = jsonResponse v).
Proof.
  destruct (POST_cases env) as [H | [H | [H | [response H]]]].
  - left. split; [auto | apply POST_blank_field; auto].
  - left. split; [auto | apply POST_blank_field; auto].
  - right; left. split; [exact H | now apply POST_throws].
  - right.
    pose proof (POST_classified env response H) as HP.
    destruct (firstContent response) as [oc |] eqn:Hc.
    2: { left. split; [| exact HP]. eapply throws_choices; eauto. }
    right.
    destruct (truthyContent oc) eqn:Ht.
    + right. destruct oc as [c |]; [| discriminate].
      cbn [negb] in HP. unfold parseAndReply, parseJSON in HP.
      destruct (JSON_parse env c) as [v |] eqn:Hp.
      * right. exists response, c, v. auto.
      * left. exists response, c. auto.
    + left. exists response, oc. auto.
Qed.

(** The reply is a JSON value with status 200 or an error with status
    400 or 500, never anything else. Status 200 goes with a run in which
    every call returned and the content parsed, and the body is then the
    parsed value as it is: the handler checks no key of it. *)
Theorem POST_success_exactly env (v : J) :
  (POST env = jsonResponse v <->
   exists response c,
     classifiedAs env response /\ firstContent response = Ok (Some c) /\
     truthyContent (Some c) = true /\ JSON_parse env c = Some v) /\
  (status (POST env) = 200 <-> exists w, body (POST env) = JsonBody w) /\
  (status (POST env) = 200 \/ status (POST env) = 400
   \/ status (POST env) = 500).
Proof.
  split; [split | split; [split |]].
  - intro HP.
    destruct (POST_shape env)
      as [[_ H] | [[_ H] | [(r & c & _ & _ & _ & H)
         | [(r & c & _ & _ & _ & _ & H)
         | (r & c & w & Hcl & Hc & Ht & Hp & H)]]]];
      rewrite H in HP; try discriminate HP.
    injection HP as <-. exists r, c. auto.
  - intros (response & c & Hcl & Hc & Ht & Hp).
    now apply (POST_success env response c v).
  - intro Hs.
    destruct (POST_shape env)
      as [[_ H] | [[_ H] | [(r & c & _ & _ & _ & H)
         | [(r & c & _ & _ & _ & _ & H)
         | (r & c & w & _ & _ & _ & _ & H)]]]];
      rewrite H in Hs |- *; try discriminate Hs.
    exists w. reflexivity.
  - intros [w Hb].
    destruct (POST_shape env)
      as [[_ H] | [[_ H] | [(r & c & _ & _ & _ & H)
         | [(r & c & _ & _ & _ & _ & H)
         | (r & c & w' & _ & _ & _ & _ & H)]]]];
      rewrite H in Hb |- *; try discriminate Hb.
    reflexivity.
  - destruct (POST_shape env)
      as [[_ H] | [[_ H] | [(r & c & _ & _ & _ & H)
         | [(r & c & _ & _ & _ & _ & H)
         | (r & c & w & _ & _ & _ & _ & H)]]]];
      rewrite H; simpl; auto.
Qed.

(** The reply has status 400 exactly when the [audio] entry is missing
    or is an empty text field; a text field that is not empty is not
    rejected as missing. *)
Theorem POST_400_exactly env :
  status (POST env) = 400 <->
  request_formData env = Ok None \/
  request_formData env = Ok (Some (EntryString "")).
Proof.
  split.
  - intro Hs.
    destruct (POST_shape env)
      as [[Hf _] | [[_ H] | [(r & c & _ & _ & _ & H)
         | [(r & c & _ & _ & _ & _ & H)
         | (r & c & w & _ & _ & _ & _ & H)]]]];
      [exact Hf | rewrite H in Hs; discriminate Hs ..].
  - intro H. now rewrite (POST_blank_field env H).
Qed.

(** The reply has status 500 with the error "Failed to transcribe audio"
    exactly when a step of the outer [try] throws: one of the six calls,
    or the read of [choices[0]] on a completion without [choices]. A
    missing content and a content that does not parse never produce
    it. *)
Theorem POST_generic_failure_exactly env :
  status (POST env) = 500 /\
  body (POST env) = ErrorBody "Failed to transcribe audio" <->
  pipelineThrows env.
Proof.
  split.
  - intros [_ Hb].
    destruct (POST_shape env)
      as [[_ H] | [[Ht _] | [(r & c & _ & _ & _ & H)
         | [(r & c & _ & _ & _ & _ & H)
         | (r & c & w & _ & _ & _ & _ & H)]]]];
      [| exact Ht | ..]; rewrite H in Hb; discriminate Hb.
  - intro H. rewrite (POST_throws env H). split; reflexivity.
Qed.

End EndpointShape.

(** ** The temporary file *)

Section EndpointFilesFacts.

Context {J : Type}.
Implicit Types (env : Env J) (fs : Files).

Ltac unfold_fx :=
  unfold POSTfx, POST, tryCatchFx, bindFx, pureFx, writeFileSyncFx,
    unlinkSyncFx, tryCatch, bind.

(** The handler with its file effects answers as the handler does, and
    whatever happens it touches no path but its own temporary file. *)
Theorem POSTfx_answers_as_POST env fs :
  fst (POSTfx env fs) = POST env /\
  forall p, p <> tempFilePathOf (Date_now env) ->
            snd (POSTfx env fs) p = fs p.
Proof.
  split.
  - unfold_fx.
    destruct (request_formData env) as [[[bytes | v] |] |]; simpl;
      try reflexivity.
    + destruct (fs_writeFileSync env _ bytes) as [[] |]; simpl;
        [| reflexivity].
      destruct (transcriptions_create env _) as [t |]; simpl;
        [| reflexivity].
      destruct (fs_unlinkSync env _) as [[] |]; simpl; [| reflexivity].
      destruct (chat_completions_create env _) as [r |]; simpl;
        [| reflexivity].
      destruct (firstContent r) as [c |]; simpl; [| reflexivity].
      destruct (negb (truthyContent c)); reflexivity.
    + destruct v; reflexivity.
  - intros p Hp. apply String.eqb_neq in Hp.
    unfold_fx.
    destruct (request_formData env) as [[[bytes | v] |] |]; simpl;
      try reflexivity.
    + destruct (fs_writeFileSync env _ bytes) as [[] |]; simpl;
        [| reflexivity].
      destruct (transcriptions_create env _) as [t |]; simpl;
        [| unfold written; now rewrite Hp].
      destruct (fs_unlinkSync env _) as [[] |]; simpl;
        [| unfold written; now rewrite Hp].
      destruct (chat_completions_create env _) as [r |]; simpl;
        [| unfold unlinked, written; now rewrite Hp].
      destruct (firstContent r) as [c |]; simpl;
        [| unfold unlinked, written; now rewrite Hp].
      destruct (negb (truthyContent c)); simpl;
        unfold unlinked, written; now rewrite Hp.
    + destruct v; reflexivity.
Qed.

(** Once the speech-to-text call and the unlink have returned, the
    temporary file is gone when the handler ends, whatever the
    classification call then does: throw, return nothing, return text
    that does not parse, or succeed. *)
Theorem temp_file_removed_after_transcription env fs
    (bytes : list nat) (transcript : string) :
  request_formData env = Ok (Some (EntryFile bytes)) ->
  fs_writeFileSync env (tempFilePathOf (Date_now env)) bytes = Ok tt ->
  transcriptions_create env (tempFilePathOf (Date_now env)) = Ok transcript ->
  fs_unlinkSync env (tempFilePathOf (Date_now env)) = Ok tt ->
  snd (POSTfx env fs) (tempFilePathOf (Date_now env)) = None.
Proof.
  intros Hf Hw Ht Hu. unfold_fx. rewrite Hf. simpl.
  rewrite Hw. simpl. rewrite Ht. simpl. rewrite Hu. simpl.
  destruct (chat_completions_create env _) as [r |]; simpl.
  - destruct (firstContent r) as [c |]; simpl;
      [| unfold unlinked; now rewrite String.eqb_refl].
    destruct (negb (truthyContent c)); simpl;
      unfold unlinked; now rewrite String.eqb_refl.
  - unfold unlinked. now rewrite String.eqb_refl.
Qed.

(** When the speech-to-text call throws, the unlink is skipped: the
    upload stays on disk under the temporary path and the reply is the
    generic failure. *)
Theorem temp_file_left_when_transcription_throws env fs
    (bytes : list nat) :
  request_formData env = Ok (Some (EntryFile bytes)) ->
  fs_writeFileSync env (tempFilePathOf (Date_now env)) bytes = Ok tt ->
  transcriptions_create env (tempFilePathOf (Date_now env)) = Raise ->
  snd (POSTfx env fs) (tempFilePathOf (Date_now env)) = Some bytes /\
  fst (POSTfx env fs) = errorResponse "Failed to transcribe audio" 500.
Proof.
  intros Hf Hw Ht. unfold_fx. rewrite Hf. simpl.
  rewrite Hw. simpl. rewrite Ht. simpl.
  unfold written. now rewrite String.eqb_refl.
Qed.

End EndpointFilesFacts.

Lemma temp_file_removed_after_transcription_witness :
  request_formData envClassifierDown
    = Ok (Some (EntryFile [26; 69; 223; 163])) /\
  snd (POSTfx envClassifierDown noFiles)
      (tempFilePathOf (Date_now envClassifierDown)) = None.
Proof.
  refine (conj eq_refl _).
  exact (temp_file_removed_after_transcription envClassifierDown noFiles
           [26; 69; 223; 163] "call the bank and buy milk"
           eq_refl eq_refl eq_refl eq_refl).
Defined.

Lemma temp_file_left_when_transcription_throws_witness :
  transcriptions_create envWhisperDown
    (tempFilePathOf (Date_now envWhisperDown)) = Raise /\
  snd (POSTfx envWhisperDown noFiles)
      (tempFilePathOf (Date_now envWhisperDown))
  = Some [26; 69; 223; 163].
Proof.
  refine (conj eq_refl _).
  exact (proj1 (temp_file_left_when_transcription_throws envWhisperDown
                  noFiles [26; 69; 223; 163] eq_refl eq_refl eq_refl)).
Defined.

Lemma POSTfx_answers_as_POST_witness :
  "/tmp/other.webm" <> tempFilePathOf (Date_now envWhisperDown) /\
  snd (POSTfx envWhisperDown noFiles) "/tmp/other.webm" = None.
Proof.
  assert (H : "/tmp/other.webm" <> tempFilePathOf (Date_now envWhisperDown))
    by discriminate.
  exact (conj H (proj2 (POSTfx_answers_as_POST envWhisperDown noFiles)
                   "/tmp/other.webm" H)).
Defined.

(** ** The path of the temporary file *)

Lemma length_append (a b : string) :
  String.length (a ++ b) = String.length a + String.length b.
Proof. induction a as [| x a IH]; simpl; [reflexivity | now rewrite IH]. Qed.

Lemma append_cancel_r (c : string) :
  forall a b : string, (a ++ c)%string = (b ++ c)%string -> a = b.
Proof.
  induction a as [| x a IH]; destruct b as [| y b]; simpl; intro H.
  - reflexivity.
  - apply (f_equal String.length) in H. simpl in H.
    rewrite length_append in H. lia.
  - apply (f_equal String.length) in H. simpl in H.
    rewrite length_append in H. lia.
  - injection H as -> H. f_equal. now apply IH.
Qed.

(** The temporary path is decided by the clock reading alone: two runs
    of the handler use the same file exactly when [Date.now()] gives them
    the same millisecond. *)
Theorem temp_path_by_clock (now1 now2 : string) :
  tempFilePathOf now1 = tempFilePathOf now2 <-> now1 = now2.
Proof.
  split; [| now intros ->].
  unfold tempFilePathOf. intro H. simpl in H.
  repeat (injection H as H). now apply append_cancel_r in H.
Qed.
